(** * VibeCharts: a shallow embedding of [assets/js/VibeCharts.js]

    The renderer is a JavaScript class.  Its helpers (colour assignment,
    brightness scaling, hex parsing, corner radius lookup, theme
    resolution, the running totals of the waterfall and donut charts) are
    ordinary functions over JavaScript values, so the development first
    fixes the fragment of the language those helpers rely on (module [JS]:
    dynamic values, IEEE-754 doubles, truthiness, [||], [+], property
    reads through [Object.prototype], [Math.max]/[Math.min]/[Math.round])
    and then transcribes the class method by method (module
    [VibeCharts]).  Statements about the code come last. *)

From Stdlib Require Import ZArith String Ascii List Floats Lia.
From stdpp Require Import gmap strings list fin_maps.

Set Warnings "-register-all,-inexact-float".
Local Open Scope Z_scope.

(** ** The JavaScript fragment *)

Module JS.

(** Values.  Numbers are binary64 doubles (Rocq's primitive floats obey
    the same IEEE-754 arithmetic as the engine).  Objects are finite maps
    from property names to values; the only objects the library handles
    are data records and object literals, so own properties always hold
    data.  [VNative n] stands for the built-in reached by reading the
    inherited property [n] of a plain object (e.g. [radii.toString]). *)
Inductive value : Type :=
| VUndef
| VNull
| VBool (b : bool)
| VNum (f : float)
| VStr (s : string)
| VArr (l : list value)
| VObj (m : gmap string value)
| VNative (n : string).

(** Exceptions raised by the runtime or by a [throw] statement. *)
Inductive error : Type :=
| TypeError (msg : string)
| Error (msg : string).

Inductive result (A : Type) : Type :=
| Ok (a : A)
| Throw (e : error).
Arguments Ok {A} a.
Arguments Throw {A} e.

(** [result] is the exception monad; stdpp's [x ← r; k] sequences two
    steps and stops at the first [Throw]. *)
#[export] Instance result_ret : MRet result := fun A a => Ok a.
#[export] Instance result_bind : MBind result := fun A B k r =>
match r with
| Ok a => k a
| Throw e => Throw e
end.
#[export] Instance result_fmap : FMap result := fun A B f r =>
match r with
| Ok a => Ok (f a)
| Throw e => Throw e
end.

(** *** Numbers *)

(** The double nearest to an integer (exact below 2^53). *)
Definition Z2F (z : Z) : float := SF2Prim (binary_normalize prec emax z 0 false).

(** The double nearest to the positive rational [N/D] (round half to
    even): the quotient is computed with at least 60 significant bits and
    one sticky bit, then rounded once. *)
Definition Q2F (N D : Z) : float :=
let s := Z.max 0 (64 + Z.log2 D - Z.log2 N) in
let q := (N * 2 ^ s) / D in
let r := (N * 2 ^ s) mod D in
SF2Prim (binary_normalize prec emax (2 * q + (if r =? 0 then 0 else 1)) (- s - 1) false).

(** The exact value of a finite double as a fraction [(N, D)], [D > 0]. *)
Definition F2frac (x : float) : option (Z * Z) :=
match Prim2SF x with
| S754_zero _ => Some (0, 1)
| S754_finite s m e =>
    let n := if s then Z.neg m else Z.pos m in
    Some (if 0 <=? e then (n * 2 ^ e, 1) else (n, 2 ^ (- e)))
| _ => None
end.

(** The integer a double denotes, when it denotes one. *)
Definition F2Z (x : float) : option Z :=
match F2frac x with
| Some (n, d) => if n mod d =? 0 then Some (n / d) else None
| None => None
end.

Definition digit_char (d : Z) : ascii := ascii_of_nat (48 + Z.to_nat d).

Fixpoint decimal_go (fuel : nat) (n : Z) (acc : string) : string :=
match fuel with
| O => acc
| S fuel' =>
    let acc' := String (digit_char (n mod 10)) acc in
    if n <? 10 then acc' else decimal_go fuel' (n / 10) acc'
end.

(** Decimal digits of a natural number. *)
Definition decimal (n : Z) : string := decimal_go (S (Z.to_nat (Z.log2 n))) n "".

(** [N/D < 10^n] *)
Definition lt_pow10 (N D n : Z) : bool :=
if 0 <=? n then N <? D * 10 ^ n else N * 10 ^ (- n) <? D.

(** The decimal exponent [n] of [N/D]: [10^(n-1) <= N/D < 10^n]. *)
Fixpoint dec_exponent (fuel : nat) (N D n : Z) : Z :=
match fuel with
| O => n
| S fuel' =>
    if lt_pow10 N D (n - 1) then dec_exponent fuel' N D (n - 1)
    else if lt_pow10 N D n then n
    else dec_exponent fuel' N D (n + 1)
end.

(** [s * 10^p] as a double. *)
Definition dec2F (s p : Z) : float :=
if 0 <=? p then Q2F (s * 10 ^ p) 1 else Q2F s (10 ^ (- p)).

(** The [k]-digit decimal [s * 10^(n-k)] nearest to [N/D] that reads back
    as [x], if there is one (ties go to the even candidate). *)
Definition digits_at (x : float) (N D n k : Z) : option (Z * Z) :=
let p := n - k in
let lo := if 0 <=? p then N / (D * 10 ^ p) else (N * 10 ^ (- p)) / D in
let hi := lo + 1 in
let ok s := Leibniz.eqb (dec2F s p) x in
let hi_closer :=
  (* 2 * N/D  versus  (2*lo + 1) * 10^p *)
  let mid := 2 * lo + 1 in
  let c := if 0 <=? p then Z.compare (2 * N) (mid * 10 ^ p * D)
           else Z.compare (2 * N * 10 ^ (- p)) (mid * D) in
  match c with Gt => true | Eq => Z.odd lo | Lt => false end in
let pick s := if s =? 10 ^ k then Some (10 ^ (k - 1), n + 1) else Some (s, n) in
match ok lo, ok hi with
| true, true => pick (if hi_closer then hi else lo)
| true, false => pick lo
| false, true => pick hi
| false, false => None
end.

Fixpoint shortest_go (fuel : nat) (x : float) (N D n k : Z) : Z * Z * Z :=
match fuel with
| O => (N * 10 ^ 17 / D, n, 17)
| S fuel' =>
    match digits_at x N D n k with
    | Some (s, n') => (s, n', k)
    | None => shortest_go fuel' x N D n (k + 1)
    end
end.

(** Number::toString step 5: the shortest digits [s] (of length [k]) and
    exponent [n] with [s * 10^(n-k)] reading back as the positive finite
    double [x]. *)
Definition shortest_digits (x : float) : Z * Z * Z :=
match F2frac x with
| Some (N, D) =>
    let est := ((Z.log2 N - Z.log2 D) * 30103) / 100000 + 1 in
    shortest_go 17 x N D (dec_exponent 8 N D est) 1
| None => (0, 0, 1)
end.

Fixpoint zeros (n : nat) : string :=
match n with
| O => ""
| S n' => String "0" (zeros n')
end.

Definition take_str (n : Z) (s : string) : string := substring 0 (Z.to_nat n) s.
Definition drop_str (n : Z) (s : string) : string :=
substring (Z.to_nat n) (String.length s - Z.to_nat n) s.

(** Number::toString for radix 10. *)
Definition number_to_string (x : float) : string :=
if is_nan x then "NaN"
else if is_zero x then "0"
else if is_infinity x then (if get_sign x then "-Infinity" else "Infinity")
else
  let '(s, n, k) := shortest_digits (abs x) in
  let ds := decimal s in
  let body :=
    if (k <=? n) && (n <=? 21) then ds +:+ zeros (Z.to_nat (n - k))
    else if (0 <? n) && (n <=? 21) then take_str n ds +:+ "." +:+ drop_str n ds
    else if (-6 <? n) && (n <=? 0) then "0." +:+ zeros (Z.to_nat (- n)) +:+ ds
    else
      let e := n - 1 in
      let es := (if e <? 0 then "-" else "+") +:+ decimal (Z.abs e) in
      if k =? 1 then ds +:+ "e" +:+ es
      else take_str 1 ds +:+ "." +:+ drop_str 1 ds +:+ "e" +:+ es in
  if get_sign x then "-" +:+ body else body.

(** *** Reading numbers from strings *)

Definition is_ws (c : ascii) : bool :=
let n := Z.of_nat (nat_of_ascii c) in
(n =? 32) || ((9 <=? n) && (n <=? 13)).

Fixpoint drop_ws (l : list ascii) : list ascii :=
match l with
| c :: l' => if is_ws c then drop_ws l' else l
| [] => []
end.

Definition trim_ws (l : list ascii) : list ascii := rev (drop_ws (rev (drop_ws l))).

(** Value of a digit in bases up to 16. *)
Definition digit_val (c : ascii) : option Z :=
let n := Z.of_nat (nat_of_ascii c) in
if (48 <=? n) && (n <=? 57) then Some (n - 48)
else if (97 <=? n) && (n <=? 102) then Some (n - 87)
else if (65 <=? n) && (n <=? 70) then Some (n - 55)
else None.

(** Longest prefix of digits in [base]: its value on top of [acc], the
    number of digits read, and the rest. *)
Fixpoint read_digits (base : Z) (l : list ascii) (acc cnt : Z) : Z * Z * list ascii :=
match l with
| c :: l' =>
    match digit_val c with
    | Some d => if d <? base then read_digits base l' (acc * base + d) (cnt + 1) else (acc, cnt, l)
    | None => (acc, cnt, l)
    end
| [] => (acc, cnt, l)
end.

(** ExponentPart, or nothing, up to the end of the text. *)
Definition parse_exponent (l : list ascii) : option Z :=
match l with
| [] => Some 0
| c :: l' =>
    if (Ascii.eqb c "e" || Ascii.eqb c "E")%bool then
      let '(neg, ds) :=
        match l' with
        | "-"%char :: r => (true, r)
        | "+"%char :: r => (false, r)
        | _ => (false, l')
        end in
      match read_digits 10 ds 0 0 with
      | (e, cnt, []) => if cnt =? 0 then None else Some (if neg then - e else e)
      | _ => None
      end
    else None
end.

(** StrUnsignedDecimalLiteral. *)
Definition parse_unsigned_decimal (l : list ascii) : option float :=
if String.eqb (string_of_list_ascii l) "Infinity" then Some infinity
else
  let '(ip, ic, r1) := read_digits 10 l 0 0 in
  let '(m, fc, r2) :=
    match r1 with
    | "."%char :: r => read_digits 10 r ip 0
    | _ => (ip, 0, r1)
    end in
  if ic + fc =? 0 then None
  else match parse_exponent r2 with
       | Some e => Some (dec2F m (e - fc))
       | None => None
       end.

(** NonDecimalIntegerLiteral: [0x], [0o] or [0b] followed by digits. *)
Definition parse_non_decimal (l : list ascii) : option (option float) :=
match l with
| "0"%char :: c :: ds =>
    let base :=
      if (Ascii.eqb c "x" || Ascii.eqb c "X")%bool then Some 16
      else if (Ascii.eqb c "o" || Ascii.eqb c "O")%bool then Some 8
      else if (Ascii.eqb c "b" || Ascii.eqb c "B")%bool then Some 2
      else None in
    match base with
    | Some b =>
        Some match read_digits b ds 0 0 with
             | (v, cnt, []) => if cnt =? 0 then None else Some (Z2F v)
             | _ => None
             end
    | None => None
    end
| _ => None
end.

(** StringToNumber.  Strings are byte strings, so only the ASCII white
    space is trimmed. *)
Definition string_to_number (s : string) : float :=
let l := trim_ws (list_ascii_of_string s) in
match l with
| [] => 0%float
| c :: l' =>
    match parse_non_decimal l with
    | Some r => default nan r
    | None =>
        if Ascii.eqb c "-" then default nan (PrimFloat.opp <$> parse_unsigned_decimal l')
        else if Ascii.eqb c "+" then default nan (parse_unsigned_decimal l')
        else default nan (parse_unsigned_decimal l)
    end
end.

(** *** Conversions *)

(** The source text of the built-in found under the inherited name [n];
    the one under [constructor] is the function [Object]. *)
Definition native_source (n : string) : string :=
"function " +:+ (if String.eqb n "constructor" then "Object" else n) +:+ "() { [native code] }".

(** The [length] of that built-in: the number of its parameters. *)
Definition native_length (n : string) : float :=
if existsb (String.eqb n) ["__defineGetter__"; "__defineSetter__"] then 2
else if existsb (String.eqb n)
          ["constructor"; "hasOwnProperty"; "isPrototypeOf"; "propertyIsEnumerable";
           "__lookupGetter__"; "__lookupSetter__"] then 1
else 0.

(** ToString.  Array elements are joined with commas, [null] and
    [undefined] elements contributing the empty string; a plain object
    prints as [[object Object]]. *)
Fixpoint to_string (v : value) : string :=
match v with
| VUndef => "undefined"
| VNull => "null"
| VBool b => if b then "true" else "false"
| VNum f => number_to_string f
| VStr s => s
| VArr l =>
    let elt x := match x with VUndef | VNull => "" | _ => to_string x end in
    (fix join (l : list value) : string :=
       match l with
       | [] => ""
       | [x] => elt x
       | x :: l' => elt x +:+ "," +:+ join l'
       end) l
| VObj _ => "[object Object]"
| VNative n => native_source n
end.

(** ToPrimitive: objects, arrays and functions become their string. *)
Definition to_primitive (v : value) : value :=
match v with
| VArr _ | VObj _ | VNative _ => VStr (to_string v)
| _ => v
end.

(** ToNumber. *)
Definition to_number (v : value) : float :=
match to_primitive v with
| VUndef => nan
| VNull => 0%float
| VBool b => if b then 1%float else 0%float
| VNum f => f
| VStr s => string_to_number s
| _ => nan
end.

(** ToBoolean. *)
Definition truthy (v : value) : bool :=
match v with
| VUndef | VNull => false
| VBool b => b
| VNum f => negb (is_zero f || is_nan f)
| VStr s => negb (String.eqb s "")
| VArr _ | VObj _ | VNative _ => true
end.

(** *** Operators *)

(** [a || b] for operands without side effects. *)
Definition js_or (a b : value) : value := if truthy a then a else b.

(** [a + b]: concatenation as soon as one primitive operand is a string,
    addition of doubles otherwise. *)
Definition js_add (a b : value) : value :=
match to_primitive a, to_primitive b with
| VStr x, pb => VStr (x +:+ to_string pb)
| pa, VStr y => VStr (to_string pa +:+ y)
| pa, pb => VNum (to_number pa + to_number pb)
end.

(** [v === s] for a string literal [s]. *)
Definition strict_eq_str (v : value) (s : string) : bool :=
match v with
| VStr x => String.eqb x s
| _ => false
end.

(** *** Property reads *)

(** The properties every plain object inherits from [Object.prototype]. *)
Definition object_prototype_members : list string :=
[ "constructor"; "hasOwnProperty"; "isPrototypeOf"; "propertyIsEnumerable";
  "toLocaleString"; "toString"; "valueOf";
  "__defineGetter__"; "__defineSetter__"; "__lookupGetter__"; "__lookupSetter__" ].

(** What a read finds on the prototype chain past the own properties:
    [__proto__] yields [Object.prototype] itself (an object without further
    own data), a member name yields that built-in, anything else is
    [undefined]. *)
Definition inherited (k : string) : value :=
if String.eqb k "__proto__" then VObj ∅
else if existsb (String.eqb k) object_prototype_members then VNative k
else VUndef.

(** [o[k]] on a plain object. *)
Definition obj_get (m : gmap string value) (k : string) : value :=
match m !! k with
| Some v => v
| None => inherited k
end.

(** [v.k] for a property name [k] that the String, Number, Boolean, Array
    and Function prototypes do not define (the class reads [value],
    [label] and the colour fields this way): reading from [undefined] or
    [null] throws, a plain object answers from its own properties and
    [Object.prototype], every other value only from [Object.prototype]. *)
Definition js_get (v : value) (k : string) : result value :=
match v with
| VUndef => Throw (TypeError ("Cannot read properties of undefined (reading '" +:+ k +:+ "')"))
| VNull => Throw (TypeError ("Cannot read properties of null (reading '" +:+ k +:+ "')"))
| VObj m => Ok (obj_get m k)
| _ => Ok (inherited k)
end.

(** [a[i]] on an array, [undefined] past the end. *)
Definition array_get (l : list value) (i : nat) : value := default VUndef (l !! i).

(** *** Math *)

(** [Math.round]: the nearest integer, ties towards +∞; the sign of a zero
    result follows the argument. *)
Definition Math_round (x : float) : float :=
match F2frac x with
| Some (n, d) =>
    if n mod d =? 0 then x
    else let r := (2 * n + d) / (2 * d) in
         if (r =? 0) && (n <? 0) then neg_zero else Z2F r
| None => x
end.

Definition is_pos_zero (x : float) : bool := is_zero x && negb (get_sign x).
Definition is_neg_zero (x : float) : bool := is_zero x && get_sign x.

Fixpoint max_loop (highest : float) (l : list float) : float :=
match l with
| [] => highest
| x :: l' =>
    if is_nan x then nan
    else if is_pos_zero x && is_neg_zero highest then max_loop x l'
    else if (highest <? x)%float then max_loop x l'
    else max_loop highest l'
end.

Fixpoint min_loop (lowest : float) (l : list float) : float :=
match l with
| [] => lowest
| x :: l' =>
    if is_nan x then nan
    else if is_neg_zero x && is_pos_zero lowest then min_loop x l'
    else if (x <? lowest)%float then min_loop x l'
    else min_loop lowest l'
end.

(** [Math.max(...l)] and [Math.min(...l)] after ToNumber on each argument. *)
Definition Math_max (l : list value) : float := max_loop neg_infinity (to_number <$> l).
Definition Math_min (l : list value) : float := min_loop infinity (to_number <$> l).

(** *** Indexing and optional chaining *)

(** [v[n]] for an index [n]: an element of an array, a character of a
    string, the property named by the digits of [n] otherwise. *)
Definition js_index (v : value) (n : nat) : result value :=
match v with
| VArr l => Ok (array_get l n)
| VStr s => Ok (match String.get n s with Some c => VStr (String c EmptyString) | None => VUndef end)
| _ => js_get v (decimal (Z.of_nat n))
end.

(** [v?.k] given the read [get] of [k]. *)
Definition optional (get : value -> result value) (v : value) : result value :=
match v with
| VUndef | VNull => Ok VUndef
| _ => get v
end.

End JS.

(** ** The class *)

Module VibeCharts.
Import JS.

(** The double quote character, for messages that quote an identifier. *)
Definition dquote : string := String (ascii_of_nat 34) EmptyString.

(** *** The page *)

(** Children the class puts into its container. *)
Inductive child : Type :=
| PlaceholderNode (fading : bool)
| CanvasNode.

(** The container element: the attributes and style properties the class
    writes, its children, and the width the layout gives it. *)
Record element : Type := {
  className : string;
  style_background : option value;
  style_backgroundColor : option value;
  children : list child;
  offsetWidth : Z
}.

(** The canvas element. *)
Record canvas_element : Type := {
  width : Z;
  height : Z
}.

(** What the class does to the 2D context: method calls and property
    assignments, in order. *)
Inductive ctx_event : Type :=
| CtxCall (method : string) (args : list value)
| CtxSet (property : string) (v : value).

(** Callbacks handed to [setTimeout]. *)
Inductive task : Type :=
| InitTimeout
| RemovePlaceholder.

(** The fields of an instance, together with what it has registered with
    the page: the resize listener on [window] and the pending timers. *)
Record instance : Type := {
  container : element;
  options : gmap string value;
  canvas : option canvas_element;
  ctx : option (list ctx_event);
  animationFrame : option Z;
  resizeObserver : bool;
  isLoading : bool;
  legendElement : option element;
  resizeListener : bool;
  timers : list task
}.

(** [this.options.k] for the option names the class reads. *)
Definition opt (o : gmap string value) (k : string) : value := default VUndef (o !! k).

Definition set_container (c : element) (i : instance) : instance :=
{| container := c; options := options i; canvas := canvas i; ctx := ctx i;
   animationFrame := animationFrame i; resizeObserver := resizeObserver i;
   isLoading := isLoading i; legendElement := legendElement i;
   resizeListener := resizeListener i; timers := timers i |}.

Definition set_options (o : gmap string value) (i : instance) : instance :=
{| container := container i; options := o; canvas := canvas i; ctx := ctx i;
   animationFrame := animationFrame i; resizeObserver := resizeObserver i;
   isLoading := isLoading i; legendElement := legendElement i;
   resizeListener := resizeListener i; timers := timers i |}.

Definition set_canvas (c : option canvas_element) (x : option (list ctx_event)) (i : instance) : instance :=
{| container := container i; options := options i; canvas := c; ctx := x;
   animationFrame := animationFrame i; resizeObserver := resizeObserver i;
   isLoading := isLoading i; legendElement := legendElement i;
   resizeListener := resizeListener i; timers := timers i |}.

Definition set_isLoading (b : bool) (i : instance) : instance :=
{| container := container i; options := options i; canvas := canvas i; ctx := ctx i;
   animationFrame := animationFrame i; resizeObserver := resizeObserver i;
   isLoading := b; legendElement := legendElement i;
   resizeListener := resizeListener i; timers := timers i |}.

Definition set_responsive (i : instance) : instance :=
{| container := container i; options := options i; canvas := canvas i; ctx := ctx i;
   animationFrame := animationFrame i; resizeObserver := true;
   isLoading := isLoading i; legendElement := legendElement i;
   resizeListener := true; timers := timers i |}.

Definition add_timer (t : task) (i : instance) : instance :=
{| container := container i; options := options i; canvas := canvas i; ctx := ctx i;
   animationFrame := animationFrame i; resizeObserver := resizeObserver i;
   isLoading := isLoading i; legendElement := legendElement i;
   resizeListener := resizeListener i; timers := timers i ++ [t] |}.

(** Record events on the context of an instance that has one. *)
Definition ctx_emit (evs : list ctx_event) (i : instance) : instance :=
set_canvas (canvas i) ((λ tr, tr ++ evs) <$> ctx i) i.

(** *** constructor: the defaults *)

Definition str_array (l : list string) : value := VArr (VStr <$> l).

Definition default_options : gmap string value :=
list_to_map [
  ("type", VStr "bar");
  ("data", VArr []);
  ("colors", str_array ["#667eea"; "#764ba2"; "#f093fb"; "#4facfe"; "#43e97b"; "#fa709a"; "#fee140"]);
  ("barColorMode", VStr "series");
  ("lineColorMode", VStr "same");
  ("lineFill", VBool false);
  ("areaFill", VBool true);
  ("fillOpacity", VNum 0.3);
  ("textColor", VStr "#333333");
  ("backgroundColor", VStr "#ffffff");
  ("gradient", VBool false);
  ("gradientColors", str_array ["#667eea"; "#764ba2"]);
  ("labelPosition", VStr "top");
  ("style", VStr "default");
  ("theme", VStr "dark");
  ("customTheme", VNull);
  ("width", VStr "100%");
  ("height", VNum 400);
  ("title", VStr "");
  ("xLabel", VStr "");
  ("yLabel", VStr "");
  ("showLegend", VBool true);
  ("legendPosition", VStr "bottom");
  ("showGrid", VBool true);
  ("showLabels", VBool true);
  ("animated", VBool true);
  ("responsive", VBool true);
  ("showPlaceholder", VBool true);
  ("animationDuration", VNum 800)
].

(** [{ ...a, ...b }]: the properties of [b] over those of [a]. *)
Definition spread (a b : gmap string value) : gmap string value := b ∪ a.

(** *** showPlaceholder, hidePlaceholder *)

Definition container_class (o : gmap string value) : string :=
"vibechart-container vibechart-" +:+ to_string (opt o "theme")
  +:+ " vibechart-" +:+ to_string (opt o "style").

Definition showPlaceholder (i : instance) : instance :=
let i := set_isLoading true i in
let c := container i in
set_container
  {| className := container_class (options i);
     style_background := style_background c;
     style_backgroundColor := style_backgroundColor c;
     children := [PlaceholderNode false];
     offsetWidth := offsetWidth c |} i.

Definition is_placeholder (n : child) : bool :=
match n with
| PlaceholderNode _ => true
| CanvasNode => false
end.

(** Fade the first placeholder, if any. *)
Fixpoint fade_placeholder (l : list child) : list child :=
match l with
| PlaceholderNode _ :: l' => PlaceholderNode true :: l'
| n :: l' => n :: fade_placeholder l'
| [] => []
end.

Definition hidePlaceholder (i : instance) : instance :=
let c := container i in
let i :=
  if existsb is_placeholder (children c) then
    add_timer RemovePlaceholder
      (set_container
         {| className := className c;
            style_background := style_background c;
            style_backgroundColor := style_backgroundColor c;
            children := fade_placeholder (children c);
            offsetWidth := offsetWidth c |} i)
  else i in
set_isLoading false i.

(** *** setupResponsive *)

(** In a browser that provides [ResizeObserver] the listener and the
    observer are both registered; what they run after a resize is
    [resize_timeout] below. *)
Definition setupResponsive (i : instance) : instance :=
if truthy (opt (options i) "responsive") then set_responsive i else i.

(** *** applyTheme *)

Definition theme_entry (bg text grid : string) : value :=
VObj (list_to_map [("backgroundColor", VStr bg); ("textColor", VStr text); ("gridColor", VStr grid)]).

Definition theme_lite : value := theme_entry "#ffffff" "#333333" "#e0e0e0".
Definition theme_dark : value := theme_entry "#1a1a2e" "#eee" "#2a2a3e".
Definition theme_gradient : value :=
theme_entry "linear-gradient(135deg, #667eea 0%, #764ba2 100%)" "#ffffff" "rgba(255,255,255,0.1)".
Definition theme_glass : value :=
theme_entry "rgba(255, 255, 255, 0.1)" "#333333" "rgba(0,0,0,0.05)".

Definition themes : gmap string value :=
list_to_map [("lite", theme_lite); ("dark", theme_dark); ("gradient", theme_gradient); ("glass", theme_glass)].

Definition applyTheme (o : gmap string value) : result (gmap string value) :=
let custom := opt o "customTheme" in
if truthy custom then
  bg ← js_get custom "backgroundColor";
  let o := <["backgroundColor" := js_or bg (opt o "backgroundColor")]> o in
  text ← js_get custom "textColor";
  let o := <["textColor" := js_or text (opt o "textColor")]> o in
  grid ← js_get custom "gridColor";
  mret (<["gridColor" := js_or grid (VStr "rgba(128, 128, 128, 0.2)")]> o)
else
  let theme := js_or (obj_get themes (to_string (opt o "theme"))) (obj_get themes "dark") in
  o ← (if negb (truthy (opt o "backgroundColor")) || strict_eq_str (opt o "backgroundColor") "#ffffff"
       then bg ← js_get theme "backgroundColor"; mret (<["backgroundColor" := bg]> o)
       else mret o);
  o ← (if negb (truthy (opt o "textColor")) || strict_eq_str (opt o "textColor") "#333333"
       then text ← js_get theme "textColor"; mret (<["textColor" := text]> o)
       else mret o);
  grid ← js_get theme "gridColor";
  mret (<["gridColor" := grid]> o).

(** *** createCanvas *)

(** [bg.includes('gradient')]: strings search for the substring, arrays for
    the element; no other value has a callable [includes]. *)
Definition includes_gradient (bg : value) : result bool :=
match bg with
| VStr s => Ok (bool_decide (is_Some (String.index 0 "gradient" s)))
| VArr l => Ok (existsb (fun x => strict_eq_str x "gradient") l)
| VUndef => Throw (TypeError "Cannot read properties of undefined (reading 'includes')")
| VNull => Throw (TypeError "Cannot read properties of null (reading 'includes')")
| _ => Throw (TypeError "this.options.backgroundColor.includes is not a function")
end.

(** What a canvas keeps of a value assigned to [width] or [height]: the
    number truncated to an unsigned 32-bit integer, or the default when
    that exceeds 2^31 - 1. *)
Definition canvas_dimension (v : value) (dflt : Z) : Z :=
match F2frac (to_number v) with
| Some (n, d) => let z := (Z.quot n d) mod 2 ^ 32 in if z <? 2 ^ 31 then z else dflt
| None => 0
end.

Fixpoint remove_first_canvas (l : list child) : list child :=
match l with
| CanvasNode :: l' => l'
| n :: l' => n :: remove_first_canvas l'
| [] => []
end.

Definition createCanvas (i : instance) : result instance :=
if isLoading i then mret i
else
  let c := container i in
  let bg := opt (options i) "backgroundColor" in
  includes_gradient bg ≫= λ gradient : bool,
  let cv := {| width := offsetWidth c;
               height := canvas_dimension (opt (options i) "height") 150 |} in
  let c' :=
    {| className := container_class (options i);
       style_background := if gradient then Some bg else style_background c;
       style_backgroundColor := if gradient then style_backgroundColor c else Some bg;
       children := remove_first_canvas (children c) ++ [CanvasNode];
       offsetWidth := offsetWidth c |} in
  mret (set_canvas (Some cv) (Some []) (set_container c' i)).

(** *** init, constructor, updateOptions *)

(** [init] resolves the theme, creates the canvas and schedules
    [init_timeout]. *)
Definition init (i : instance) : result instance :=
o ← applyTheme (options i);
i ← createCanvas (set_options o i);
mret (add_timer InitTimeout i).

(** [new VibeCharts(containerId, options)] in a document [doc] mapping
    element ids to elements. *)
Definition constructor (doc : gmap string element) (containerId : string)
    (user_options : gmap string value) : result instance :=
match doc !! containerId with
| None =>
    Throw (Error ("Container with id " +:+ dquote +:+ containerId +:+ dquote +:+ " not found"))
| Some c =>
    let i :=
      {| container := c;
         options := spread default_options user_options;
         canvas := None; ctx := None; animationFrame := None;
         resizeObserver := false; isLoading := false; legendElement := None;
         resizeListener := false; timers := [] |} in
    let i := if truthy (opt (options i) "showPlaceholder") then showPlaceholder i else i in
    i ← init i;
    mret (setupResponsive i)
end.

Definition updateOptions (newOptions : gmap string value) (i : instance) : result instance :=
init (set_options (spread (options i) newOptions) i).

(** *** getRadius *)

Definition radii : gmap string value :=
list_to_map [("sharp", VNum 0); ("default", VNum 4); ("soft", VNum 18); ("rounded", VNum 51)].

Definition getRadius (o : gmap string value) : value :=
js_or (obj_get radii (to_string (opt o "style"))) (VNum 4).

(** *** hexToRgb *)

Record rgb : Type := { r : float; g : float; b : float }.

Definition is_hex_digit (c : ascii) : bool := bool_decide (is_Some (digit_val c)).

(** [#?] at the start of the expression. *)
Definition strip_hash (s : string) : string :=
match s with
| String "#" rest => rest
| _ => s
end.

(** The match of [/^#?([a-f\d]{2})([a-f\d]{2})([a-f\d]{2})$/i]: the three
    captured groups. *)
Definition hex_exec (s : string) : option (string * string * string) :=
match list_ascii_of_string (strip_hash s) with
| [c1; c2; c3; c4; c5; c6] =>
    if forallb is_hex_digit [c1; c2; c3; c4; c5; c6]
    then Some (string_of_list_ascii [c1; c2], string_of_list_ascii [c3; c4], string_of_list_ascii [c5; c6])
    else None
| _ => None
end.

(** [parseInt(s, 16)]: white space, a sign and a [0x] prefix are skipped,
    then the longest run of hex digits is read. *)
Definition parseInt16 (s : string) : float :=
let l := drop_ws (list_ascii_of_string s) in
let '(neg, l) :=
  match l with
  | "-"%char :: l' => (true, l')
  | "+"%char :: l' => (false, l')
  | _ => (false, l)
  end in
let l :=
  match l with
  | "0"%char :: c :: l' => if (Ascii.eqb c "x" || Ascii.eqb c "X")%bool then l' else l
  | _ => l
  end in
let '(v, cnt, _) := read_digits 16 l 0 0 in
if cnt =? 0 then nan else if neg then (- Z2F v)%float else Z2F v.

(** The argument goes through ToString on its way into [exec]. *)
Definition hexToRgb (hex : value) : rgb :=
match hex_exec (to_string hex) with
| Some (g1, g2, g3) => {| r := parseInt16 g1; g := parseInt16 g2; b := parseInt16 g3 |}
| None => {| r := 0; g := 0; b := 0 |}
end.

(** *** adjustBrightness, getColor *)

(** [Math.min(255, Math.max(0, Math.round(c * factor)))] *)
Definition scale_channel (c factor : float) : float :=
Math_min [VNum 255; VNum (Math_max [VNum 0; VNum (Math_round (c * factor))])].

Definition rgb_text (x y z : float) : string :=
"rgb(" +:+ number_to_string x +:+ "," +:+ number_to_string y +:+ "," +:+ number_to_string z +:+ ")".

Definition adjustBrightness (color : value) (factor : float) : value :=
let c := hexToRgb color in
VStr (rgb_text (scale_channel (r c) factor) (scale_channel (g c) factor) (scale_channel (b c) factor)).

(** [colors] is [this.options.colors], an array, and [index] an array
    index (every caller passes the index of a [forEach] or 0), so [%] is
    the remainder on naturals.  On an empty palette [index % 0] is [NaN]
    and [colors[NaN]] is [undefined], which is what [array_get] returns
    on the empty list. *)
Definition getColor (colors : list value) (index : nat) (mode : value) : value :=
if strict_eq_str mode "individual" then array_get colors (index mod length colors)
else if strict_eq_str mode "shade" then
  adjustBrightness (array_get colors 0) (1 - Z2F (Z.of_nat index) * 0.15)
else array_get colors (index mod length colors).

(** *** The value of a series entry *)

(** [item.value || item], the expression every drawing routine uses. *)
Definition entry_value (item : value) : result value :=
v ← js_get item "value";
mret (js_or v item).

Fixpoint map_entries (f : value -> result value) (l : list value) : result (list value) :=
match l with
| [] => mret []
| x :: l' => y ← f x; ys ← map_entries f l'; mret (y :: ys)
end.

(** *** drawDonut: the total and the centre text *)

(** [data.reduce((sum, item) => sum + (item.value || item), 0)] *)
Fixpoint sum_entries (sum : value) (data : list value) : result value :=
match data with
| [] => mret sum
| item :: data' => v ← entry_value item; sum_entries (js_add sum v) data'
end.

Definition donut_total (data : list value) : result value := sum_entries (VNum 0) data.

(** The text [fillText(total, ...)] paints in the centre: its first
    argument as a string. *)
Definition donut_center_text (data : list value) : result string :=
to_string <$> donut_total data.

(** *** drawWaterfall: the cumulative scale *)

(** The reducer of [values.reduce(..., [])]: push [val] first, then the
    previous entry plus [val]. *)
Definition push_cumulative (acc : list value) (i : nat) (val : value) : list value :=
acc ++ [if (i =? 0)%nat then val else js_add (array_get acc (i - 1)) val].

Fixpoint reduce_from {A : Type} (f : A -> nat -> value -> A) (i : nat) (l : list value) (acc : A) : A :=
match l with
| [] => acc
| x :: l' => reduce_from f (S i) l' (f acc i x)
end.

Definition cumulative_of (values : list value) : list value :=
reduce_from push_cumulative 0%nat values [].

Record waterfall_scale : Type := {
  wf_values : list value;
  wf_cumulative : list value;
  wf_maxValue : float;
  wf_minValue : float;
  wf_range : float
}.

Definition waterfall (data : list value) : result waterfall_scale :=
values ← map_entries entry_value data;
let cumulative := cumulative_of values in
let maxValue := Math_max cumulative in
let minValue := Math_min (cumulative ++ [VNum 0]) in
mret {| wf_values := values; wf_cumulative := cumulative;
        wf_maxValue := maxValue; wf_minValue := minValue;
        wf_range := (maxValue - minValue)%float |}.

(** *** clear, drawTitle *)

(** Both start by touching [this.ctx], so a missing context is the
    [TypeError] of using a property of [null]; the canvas is read next. *)
Definition clear (i : instance) : result instance :=
match ctx i, canvas i with
| None, _ => Throw (TypeError "Cannot read properties of null (reading 'clearRect')")
| Some _, None => Throw (TypeError "Cannot read properties of null (reading 'width')")
| Some _, Some cv =>
    Ok (ctx_emit [CtxCall "clearRect" [VNum 0; VNum 0; VNum (Z2F (width cv)); VNum (Z2F (height cv))]] i)
end.

Definition drawTitle (i : instance) : result instance :=
match ctx i, canvas i with
| None, _ => Throw (TypeError "Cannot set properties of null (setting 'fillStyle')")
| Some _, None => Throw (TypeError "Cannot read properties of null (reading 'width')")
| Some _, Some cv =>
    Ok (ctx_emit
          [ CtxSet "fillStyle" (opt (options i) "textColor");
            CtxSet "font" (VStr "bold 20px Inter, Arial");
            CtxSet "textAlign" (VStr "center");
            CtxCall "fillText" [opt (options i) "title"; VNum (Z2F (width cv) / 2)%float; VNum 30] ] i)
end.

(** *** render *)

(** The methods the class body declares. *)
Definition class_methods : list string :=
[ "constructor"; "showPlaceholder"; "hidePlaceholder"; "setupResponsive"; "init";
  "applyTheme"; "createCanvas"; "loadData"; "render"; "clear"; "drawTitle"; "drawGrid";
  "getColor"; "adjustBrightness"; "getRadius"; "drawRoundedRect"; "applyGradient";
  "drawBar"; "drawHorizontalBar"; "drawLine"; "drawArea"; "drawPie"; "drawDonut";
  "drawRadar"; "drawGauge"; "drawHeatmap"; "drawWaterfall";
  "drawScatter"; "drawBubble"; "drawPolar"; "drawTreemap";
  "drawLegend"; "interpolateColor"; "hexToRgb"; "updateOptions"; "destroy" ].

(** Those declared with an empty body. *)
Definition empty_methods : list string :=
[ "drawScatter"; "drawBubble"; "drawPolar"; "drawTreemap" ].

(** The own properties of the [chartTypes] table: each tag maps to an
    arrow function that calls the method named here. *)
Definition chartTypes : gmap string string :=
list_to_map [
  ("bar", "drawBar"); ("horizontalBar", "drawHorizontalBar"); ("line", "drawLine");
  ("area", "drawArea"); ("pie", "drawPie"); ("donut", "drawDonut");
  ("scatter", "drawScatter"); ("bubble", "drawBubble"); ("radar", "drawRadar");
  ("polar", "drawPolar"); ("heatmap", "drawHeatmap"); ("treemap", "drawTreemap");
  ("gauge", "drawGauge"); ("waterfall", "drawWaterfall") ].

(** [v.length > 0].  The length of an array or a string is a natural
    number, compared as such, a built-in function has the number of its
    parameters; any other value answers with its [length] property, if it
    has one. *)
Definition length_positive (v : value) : result bool :=
match v with
| VArr l => Ok (bool_decide (0 < length l)%nat)
| VStr s => Ok (bool_decide (0 < String.length s)%nat)
| VNative n => Ok (0 <? native_length n)%float
| _ => len ← js_get v "length"; mret (0 <? to_number len)%float
end.

Section Rendering.

(** What the body of a declared drawing method does: the chart routines
    read the instance and act on the context only, so a run either leaves
    a sequence of context events or throws.  They are not transcribed and
    nothing more is assumed about them. *)
Variable paint : string -> instance -> result (list ctx_event).

(** [this.name()], for a name that is not a member of [Object.prototype].
    A method with an empty body returns at once, another declared method
    paints; a name the class does not declare reads as [undefined] (or as
    a data field), and calling that is a [TypeError]. *)
Definition call_method (name : string) (i : instance) : result instance :=
if bool_decide (name ∈ empty_methods) then Ok i
else if bool_decide (name ∈ class_methods) then evs ← paint name i; mret (ctx_emit evs i)
else Throw (TypeError ("this." +:+ name +:+ " is not a function")).

(** [chartTypes[type]] and, when that is truthy, the call.  An inherited
    built-in is called with no arguments on the table itself: the two
    accessor definers reject the missing function, [__proto__] is an
    object and cannot be called, the other built-ins return normally. *)
Definition dispatch (i : instance) : result instance :=
let k := to_string (opt (options i) "type") in
match chartTypes !! k with
| Some name => call_method name i
| None =>
    match inherited k with
    | VUndef => Ok i
    | VNative n =>
        if String.eqb n "__defineGetter__" || String.eqb n "__defineSetter__"
        then Throw (TypeError ("Object.prototype." +:+ n +:+ ": Expecting function"))
        else Ok i
    | _ => Throw (TypeError "chartTypes[this.options.type] is not a function")
    end
end.

Definition render (i : instance) : result instance :=
if isLoading i then Ok i
else
  i ← clear i;
  i ← (if truthy (opt (options i) "title") then drawTitle i else Ok i);
  i ← dispatch i;
  if truthy (opt (options i) "showLegend") then
    length_positive (opt (options i) "data") ≫= λ nonempty : bool,
    if nonempty then call_method "drawExternalLegend" i else Ok i
  else Ok i.

(** The callback [init] schedules. *)
Definition init_timeout (i : instance) : result instance :=
render (hidePlaceholder i).

(** The debounced resize handler. *)
Definition resize_timeout (i : instance) : result instance :=
match canvas i with
| Some cv =>
    render (set_canvas (Some {| width := offsetWidth (container i); height := height cv |}) (ctx i) i)
| None => Ok i
end.

End Rendering.

(** *** interpolateColor *)

Definition interpolateColor (color1 color2 : value) (factor : float) : value :=
let c1 := hexToRgb color1 in
let c2 := hexToRgb color2 in
let mix (x y : float) := Math_round (x + (y - x) * factor) in
VStr (rgb_text (mix (r c1) (r c2)) (mix (g c1) (g c2)) (mix (b c1) (b c2))).

(** *** drawGauge: the reading *)

(** [data.value || data[0]?.value || 75], for any [options.data]. *)
Definition gauge_value (data : value) : result value :=
v ← js_get data "value";
if truthy v then mret v
else
  first ← js_index data 0;
  v0 ← optional (fun x => js_get x "value") first;
  mret (js_or v0 (VNum 75)).

(** [data.max || 100] *)
Definition gauge_max (data : value) : result value :=
m ← js_get data "max";
mret (js_or m (VNum 100)).

End VibeCharts.

(** ** Vocabulary of the statements *)

Import JS VibeCharts.

(** A record literal [{ label, value }]. *)
Definition record (label : string) (v : value) : value :=
VObj (list_to_map [("label", VStr label); ("value", v)]).

(** [x <= y] on doubles. *)
Definition fle (x y : float) : Prop := (x <=? y)%float = true.

Definition no_nan (l : list float) : Prop := Forall (fun x => is_nan x = false) l.

(** An entry that carries the number [f]: the bare number, or a record
    whose [value] field is [f] and is truthy (neither 0 nor NaN). *)
Inductive carries : value -> float -> Prop :=
| carries_bare (f : float) : carries (VNum f) f
| carries_record (m : gmap string value) (f : float) :
    m !! "value" = Some (VNum f) -> truthy (VNum f) = true -> carries (VObj m) f.

(** The sum of the first [n] numbers of a list, added left to right in
    double arithmetic. *)
Definition sum_first (n : nat) (vs : list float) : float :=
match take n vs with
| [] => 0%float
| v :: rest => fold_left PrimFloat.add rest v
end.

(** The running totals of a list, one per entry. *)
Fixpoint totals_from (s : float) (vs : list float) : list float :=
match vs with
| [] => []
| v :: vs' => (s + v)%float :: totals_from (s + v)%float vs'
end.

Definition running_totals (vs : list float) : list float :=
match vs with
| [] => []
| v :: vs' => v :: totals_from v vs'
end.

(** The characters that count as hex digits. *)
Definition hex_chars : list ascii := list_ascii_of_string "0123456789abcdefABCDEF".

(** A colour in six-digit hex form: six hex digits, with or without a
    leading [#]. *)
Definition hex6 (l : list ascii) : Prop := length l = 6%nat /\ Forall (fun c => c ∈ hex_chars) l.

Definition hex6_form (s : string) : Prop :=
exists l, hex6 l /\ (s = string_of_list_ascii l \/ s = String "#" (string_of_list_ascii l)).

Definition lower (c : ascii) : ascii :=
let n := nat_of_ascii c in
if (65 <=? n)%nat && (n <=? 90)%nat then ascii_of_nat (n + 32) else c.

(** The number a hex digit stands for: its position among the lower-case
    digits. *)
Definition hex_value (c : ascii) : Z :=
match String.index 0 (String (lower c) EmptyString) "0123456789abcdef" with
| Some n => Z.of_nat n
| None => 0
end.

Definition hex_pair (c d : ascii) : Z := 16 * hex_value c + hex_value d.

(** Re-encoding of a channel as two lower-case hex digits, and of a
    triple as six. *)
Definition hex_digit (d : Z) : ascii :=
default "?"%char (list_ascii_of_string "0123456789abcdef" !! Z.to_nat d).

Definition to_hex2 (x : float) : string :=
match F2Z x with
| Some n => String (hex_digit (n / 16)) (String (hex_digit (n mod 16)) EmptyString)
| None => "??"
end.

Definition rgbToHex (c : rgb) : string := to_hex2 (r c) +:+ to_hex2 (g c) +:+ to_hex2 (b c).

Definition black : rgb := {| r := 0; g := 0; b := 0 |}.

(** The brightness factor of 'shade' mode at an index. *)
Definition shade_factor (i : nat) : float := (1 - Z2F (Z.of_nat i) * 0.15)%float.

(** [v.k] where the read cannot throw. *)
Definition field (v : value) (k : string) : value :=
match js_get v k with
| Ok x => x
| Throw _ => VUndef
end.

(** An explicit colour: set, and different from the built-in default. *)
Definition explicit (v : value) (dflt : string) : bool := truthy v && negb (strict_eq_str v dflt).

(** The entry of the theme table for the configured tag, the dark entry
    when the table has nothing truthy under that name. *)
Definition table_theme (o : gmap string value) : value :=
js_or (obj_get themes (to_string (opt o "theme"))) theme_dark.

(** The effective colours by precedence: a custom theme first (each of
    its missing fields falling back to the current colour, or to the
    fixed grey for the grid); otherwise an explicit background or text
    colour is kept and the rest comes from the theme table. *)
Definition resolve_theme (o : gmap string value) : gmap string value :=
let custom := opt o "customTheme" in
if truthy custom then
  <["gridColor" := js_or (field custom "gridColor") (VStr "rgba(128, 128, 128, 0.2)")]>
    (<["textColor" := js_or (field custom "textColor") (opt o "textColor")]>
       (<["backgroundColor" := js_or (field custom "backgroundColor") (opt o "backgroundColor")]> o))
else
  let theme := table_theme o in
  <["gridColor" := field theme "gridColor"]>
    (<["textColor" := if explicit (opt o "textColor") "#333333"
                      then opt o "textColor" else field theme "textColor"]>
       (<["backgroundColor" := if explicit (opt o "backgroundColor") "#ffffff"
                               then opt o "backgroundColor" else field theme "backgroundColor"]> o)).

(** Background, text and grid colour of a configuration. *)
Definition colours (o : gmap string value) : value * value * value :=
(opt o "backgroundColor", opt o "textColor", opt o "gridColor").

Definition lite_colours : value * value * value := (VStr "#ffffff", VStr "#333333", VStr "#e0e0e0").
Definition dark_colours : value * value * value := (VStr "#1a1a2e", VStr "#eee", VStr "#2a2a3e").

(** Values with a callable [includes]. *)
Definition has_includes (v : value) : bool :=
match v with
| VStr _ | VArr _ => true
| _ => false
end.

(** The message of the one [throw] statement of the class. *)
Definition not_found (containerId : string) : error :=
Error ("Container with id " +:+ dquote +:+ containerId +:+ dquote +:+ " not found").

(** A container as the page lays it out before the chart is created. *)
Definition empty_container (w : Z) : element :=
{| className := ""; style_background := None; style_backgroundColor := None;
   children := []; offsetWidth := w |}.

(** The instance a construction yields. *)
Definition instance_of (r : result instance) : instance :=
match r with
| Ok i => i
| Throw _ =>
    {| container := empty_container 0; options := ∅; canvas := None; ctx := None;
       animationFrame := None; resizeObserver := false; isLoading := false;
       legendElement := None; resizeListener := false; timers := [] |}
end.

(** The README's bar chart, created without placeholder so that the
    canvas exists, at the time the first render is due. *)
Definition readme_chart : result instance :=
hidePlaceholder <$>
  constructor {[ "chart1" := empty_container 600 ]} "chart1"
    (list_to_map
       [ ("type", VStr "bar");
         ("data", VArr [record "Jan" (VNum 45); record "Feb" (VNum 62)]);
         ("showPlaceholder", VBool false) ]).

Definition readme_instance : instance := instance_of readme_chart.

(** The same chart created with the default options. *)
Definition default_chart : result instance :=
constructor {[ "chart1" := empty_container 600 ]} "chart1"
  {[ "data" := VArr [record "Jan" (VNum 45)] ]}.

(** A chart without data, created without placeholder. *)
Definition empty_chart : result instance :=
hidePlaceholder <$>
  constructor {[ "chart1" := empty_container 600 ]} "chart1"
    {[ "showPlaceholder" := VBool false ]}.

(** A pair of hex digits is read as the number it denotes, which lies
    between 0 and 255 and is written back as the same digits. *)
Definition pair_ok (c d : ascii) : bool :=
Leibniz.eqb (parseInt16 (string_of_list_ascii [c; d])) (Z2F (hex_pair c d))
&& String.eqb (to_hex2 (Z2F (hex_pair c d))) (string_of_list_ascii [lower c; lower d])
&& (0 <=? hex_pair c d) && (hex_pair c d <=? 255).

(** At index 0 a channel between 0 and 255 is printed unchanged. *)
Definition channel_ok (n : Z) : bool :=
String.eqb (number_to_string (scale_channel (Z2F n) (shade_factor 0))) (decimal n).

(** The instance as the constructor leaves it before [init]. *)
Definition fresh (c : element) (user_options : gmap string value) : instance :=
let i :=
  {| container := c; options := spread default_options user_options;
     canvas := None; ctx := None; animationFrame := None;
     resizeObserver := false; isLoading := false; legendElement := None;
     resizeListener := false; timers := [] |} in
if truthy (opt (options i) "showPlaceholder") then showPlaceholder i else i.

(** A double that is zero or finite, seen through its specification. *)
Definition finite_sf (s : spec_float) : Prop :=
match s with
| S754_zero _ | S754_finite _ _ _ => True
| _ => False
end.

(** Values for which the model's ToString is the language's: everything
    but objects, arrays and functions. *)
Definition primitive (v : value) : bool :=
match v with
| VArr _ | VObj _ | VNative _ => false
| _ => true
end.

(** The integers [a, a+1, ..., a+n-1]. *)
Fixpoint zrange (n : nat) (a : Z) : list Z :=
match n with
| O => []
| S n' => a :: zrange n' (a + 1)
end.

(** The brightness factor of the index [z] is not an infinity. *)
Definition factor_finite (z : Z) : bool := negb (is_infinity (1 - Z2F z * 0.15)%float).

(** The double of a channel value is neither NaN nor an infinity. *)
Definition small_channel_finite (n : Z) : bool :=
negb (is_nan (Z2F n)) && negb (is_infinity (Z2F n)).

(** A colour record written in [rgb()] notation. *)
Definition rgb_of (c : rgb) : value := VStr (rgb_text (r c) (g c) (b c)).

(** The doubles of the channel values 0 to 255. *)
Definition channel_doubles : list float := Z2F <$> zrange 256 0.

(** Mixing two channels at the factors 0 and 1 gives back the first and
    the second, before rounding. *)
Definition mix_ok (x y : float) : bool :=
Leibniz.eqb (x + (y - x) * 0) x && Leibniz.eqb (x + (y - x) * 1) y.

(** A channel is its own rounding. *)
Definition round_ok (x : float) : bool := Leibniz.eqb (Math_round x) x.

(** ** Properties of the class *)

(** *** The fragment at work *)

Example number_to_string_samples :
  number_to_string <$> [ 0; -0; 100; 255; 0.5; 24.5; 31.499999999999996; -3;
                         (0.1 + 0.2); 1e21; 123456789012345680000; 1e-7; 0.000001;
                         nan; infinity; neg_infinity ]%float
  = [ "0"; "0"; "100"; "255"; "0.5"; "24.5"; "31.499999999999996"; "-3";
      "0.30000000000000004"; "1e+21"; "123456789012345680000"; "1e-7"; "0.000001";
      "NaN"; "Infinity"; "-Infinity" ].
Proof. vm_compute. reflexivity. Qed.

Example string_to_number_samples :
  string_to_number <$> [ ""; " 45 "; "4535"; "1.5"; ".5"; "5."; "1e3"; "0x1F"; "-Infinity" ]
  = [ 0; 45; 4535; 1.5; 0.5; 5; 1000; 31; neg_infinity ]%float
  /\ Forall (fun s => is_nan (string_to_number s) = true)
       [ "abc"; "12px"; "."; "0x"; "-0x10"; "5[object Object]" ].
Proof. split; [vm_compute; reflexivity | repeat constructor]. Qed.

Example Math_round_samples :
  Math_round <$> [ 0.5; 1.5; 2.5; -0.5; -1.5; -2.5; 0.49999999999999994; 31.499999999999996; 254.6 ]%float
  = [ 1; 2; 3; -0; -1; -2; 0; 31; 255 ]%float.
Proof. vm_compute. reflexivity. Qed.

Example js_add_samples :
  js_add (VNum 1) (VNum 2) = VNum 3
  /\ js_add (VNum 0) (record "x" (VNum 0)) = VStr "0[object Object]"
  /\ js_add (VStr "5[object Object]") (VNum (-3)) = VStr "5[object Object]-3"
  /\ js_add (VNum 1) (VBool true) = VNum 2
  /\ js_add (VArr [VNum 1; VNull; VStr "a"]) VUndef = VStr "1,,aundefined".
Proof. repeat split; vm_compute; reflexivity. Qed.

Example Math_max_min_samples :
  Math_max [VNum 1; VNum 5; VNum (-2)] = 5%float
  /\ Math_min [VNum 1; VNum 5; VNum (-2); VNum 0] = (-2)%float
  /\ Math_max [] = neg_infinity
  /\ Math_max [VStr "45"; VStr "4535"] = 4535%float
  /\ is_nan (Math_max [VNum 1; VStr "1[object Object]"]) = true.
Proof. repeat split; vm_compute; reflexivity. Qed.

(** *** Corner radius *)

Lemma getRadius_style (o : gmap string value) (tag : string) :
  getRadius (<["style" := VStr tag]> o) = js_or (obj_get radii tag) (VNum 4).
Proof.
  unfold getRadius, opt. now rewrite lookup_insert_eq.
Qed.

(** C1.  The table lists sharp as 0, but the lookup is followed by
    [|| 4] and 0 is falsy: [getRadius] answers 4 for the tag 'sharp',
    exactly as for 'default' and for a tag that is not in the table; 18
    and 51 come back for 'soft' and 'rounded'.  A tag naming a member of
    [Object.prototype] is answered with that member. *)
Theorem getRadius_sharp_is_default (o : gmap string value) :
  obj_get radii "sharp" = VNum 0
  /\ getRadius (<["style" := VStr "sharp"]> o) = VNum 4
  /\ getRadius (<["style" := VStr "default"]> o) = VNum 4
  /\ getRadius (<["style" := VStr "soft"]> o) = VNum 18
  /\ getRadius (<["style" := VStr "rounded"]> o) = VNum 51
  /\ (forall tag, radii !! tag = None ->
        getRadius (<["style" := VStr tag]> o)
        = match inherited tag with VUndef => VNum 4 | v => v end).
Proof.
  split; [reflexivity|].
  repeat split; try (rewrite getRadius_style; reflexivity).
  intros tag Hnone. rewrite getRadius_style. unfold obj_get. rewrite Hnone.
  unfold inherited.
  destruct (String.eqb tag "__proto__"); [reflexivity|].
  destruct (existsb _ _); reflexivity.
Qed.

(** *** The value of an entry *)

Lemma entry_value_number (f : float) : entry_value (VNum f) = Ok (VNum f).
Proof. reflexivity. Qed.

Lemma entry_value_record (m : gmap string value) (v : value) :
  m !! "value" = Some v ->
  entry_value (VObj m) = Ok (if truthy v then v else VObj m).
Proof.
  intros H. unfold entry_value, js_get, obj_get. rewrite H. reflexivity.
Qed.

(** C3.  [item.value || item] hands a bare number through and returns the
    [value] field of a record when that field is truthy; a record whose
    value is 0 is itself the result, so the drawing routines receive the
    object where the number 0 was meant. *)
Theorem entry_value_zero_record (m : gmap string value) :
  (forall f, entry_value (VNum f) = Ok (VNum f))
  /\ (forall v, truthy v = true ->
        entry_value (VObj (<["value" := v]> m)) = Ok v)
  /\ entry_value (VObj (<["value" := VNum 0]> m)) = Ok (VObj (<["value" := VNum 0]> m))
  /\ entry_value (record "x" (VNum 0)) <> Ok (VNum 0).
Proof.
  split; [exact entry_value_number|].
  split.
  - intros v Hv. rewrite (entry_value_record _ v) by apply lookup_insert_eq.
    now rewrite Hv.
  - split.
    + now rewrite (entry_value_record _ (VNum 0)) by apply lookup_insert_eq.
    + unfold record.
      rewrite (entry_value_record _ (VNum 0)) by reflexivity.
      discriminate.
Qed.

(** *** Palette modes *)

Lemma array_get_in_range (l : list value) (i : nat) :
  l <> [] -> exists c, l !! (i mod length l)%nat = Some c /\ array_get l (i mod length l) = c.
Proof.
  intros Hne.
  assert (Hlt : (i mod length l < length l)%nat).
  { apply Nat.mod_upper_bound. destruct l; [congruence | discriminate]. }
  destruct (lookup_lt_is_Some_2 l _ Hlt) as [c Hc].
  exists c. split; [exact Hc|]. unfold array_get. now rewrite Hc.
Qed.

(** C4.  In 'series' and in 'individual' mode (and in any mode other than
    'shade') [getColor] returns the palette entry at [i mod length]; the
    two modes are the same function of palette and index. *)
Theorem getColor_cycles (colors : list value) (i : nat) :
  colors <> [] ->
  exists c, colors !! (i mod length colors)%nat = Some c
    /\ getColor colors i (VStr "series") = c
    /\ getColor colors i (VStr "individual") = c
    /\ (forall mode, strict_eq_str mode "shade" = false -> getColor colors i mode = c).
Proof.
  intros Hne. destruct (array_get_in_range colors i Hne) as (c & Hc & Hget).
  exists c. split; [exact Hc|].
  assert (Hmode : forall mode, strict_eq_str mode "shade" = false -> getColor colors i mode = c).
  { intros mode Hs. unfold getColor. rewrite Hs.
    destruct (strict_eq_str mode "individual"); exact Hget. }
  repeat split; [apply Hmode; reflexivity | apply Hmode; reflexivity | exact Hmode].
Qed.

Lemma getColor_cycles_witness :
  exists c, [VStr "#667eea"; VStr "#764ba2"] !! (3 mod 2)%nat = Some c
    /\ getColor [VStr "#667eea"; VStr "#764ba2"] 3 (VStr "series") = c
    /\ getColor [VStr "#667eea"; VStr "#764ba2"] 3 (VStr "individual") = c
    /\ (forall mode, strict_eq_str mode "shade" = false ->
          getColor [VStr "#667eea"; VStr "#764ba2"] 3 mode = c).
Proof.
  apply (getColor_cycles [VStr "#667eea"; VStr "#764ba2"] 3). discriminate.
Defined.

(** *** Order on doubles *)

Ltac sf_compare_cases :=
  repeat match goal with
  | |- context [Pos.compare_cont Eq ?a ?b] => change (Pos.compare_cont Eq a b) with (Pos.compare a b)
  | H : context [Pos.compare_cont Eq ?a ?b] |- _ => change (Pos.compare_cont Eq a b) with (Pos.compare a b) in H
  end;
  repeat match goal with
  | |- context [Z.compare ?a ?b] => destruct (Z.compare_spec a b)
  | H : context [Z.compare ?a ?b] |- _ => destruct (Z.compare_spec a b)
  | |- context [Pos.compare ?a ?b] => destruct (Pos.compare_spec a b)
  | H : context [Pos.compare ?a ?b] |- _ => destruct (Pos.compare_spec a b)
  end;
  simpl in *; subst; try reflexivity; try discriminate; try lia.

Lemma SFleb_trans (a b c : spec_float) :
  SFleb a b = true -> SFleb b c = true -> SFleb a c = true.
Proof.
  unfold SFleb, SFcompare.
  destruct a as [[]|[]| |[] ma ea], b as [[]|[]| |[] mb eb], c as [[]|[]| |[] mc ec];
    simpl; intros Hab Hbc; try reflexivity; try discriminate; sf_compare_cases.
Qed.

Lemma SFleb_refl (a : spec_float) : a <> S754_nan -> SFleb a a = true.
Proof.
  unfold SFleb, SFcompare.
  destruct a as [[]|[]| |[] ma ea]; simpl; intros Hn; try reflexivity; try congruence;
    rewrite Z.compare_refl; change (Pos.compare_cont Eq ma ma) with (Pos.compare ma ma);
    rewrite Pos.compare_refl; reflexivity.
Qed.

Lemma SFltb_leb (a b : spec_float) : SFltb a b = true -> SFleb a b = true.
Proof.
  unfold SFltb, SFleb. destruct (SFcompare a b) as [[]|]; congruence.
Qed.

Lemma SFltb_false_leb (a b : spec_float) :
  a <> S754_nan -> b <> S754_nan -> SFltb a b = false -> SFleb b a = true.
Proof.
  unfold SFltb, SFleb, SFcompare.
  destruct a as [[]|[]| |[] ma ea], b as [[]|[]| |[] mb eb];
    simpl; intros Ha Hb Hlt; try reflexivity; try discriminate; try congruence; sf_compare_cases.
Qed.

Lemma is_nan_Prim2SF (x : float) : is_nan x = false <-> Prim2SF x <> S754_nan.
Proof.
  unfold is_nan. rewrite FloatAxioms.eqb_spec. unfold SFeqb. split.
  - intros H Hn. rewrite Hn in H. discriminate.
  - intros Hn. unfold SFcompare.
    destruct (Prim2SF x) as [[]|[]| |[] m e]; simpl; try reflexivity; try congruence;
      rewrite Z.compare_refl; change (Pos.compare_cont Eq m m) with (Pos.compare m m);
      rewrite Pos.compare_refl; reflexivity.
Qed.

Lemma fle_refl (x : float) : is_nan x = false -> fle x x.
Proof. intros H. unfold fle. rewrite FloatAxioms.leb_spec. apply SFleb_refl, is_nan_Prim2SF, H. Qed.

Lemma fle_trans (x y z : float) : fle x y -> fle y z -> fle x z.
Proof. unfold fle. rewrite !FloatAxioms.leb_spec. apply SFleb_trans. Qed.

Lemma flt_fle (x y : float) : (x <? y)%float = true -> fle x y.
Proof. unfold fle. rewrite FloatAxioms.ltb_spec, FloatAxioms.leb_spec. apply SFltb_leb. Qed.

Lemma fnlt_fle (x y : float) :
  is_nan x = false -> is_nan y = false -> (x <? y)%float = false -> fle y x.
Proof.
  unfold fle. rewrite FloatAxioms.ltb_spec, FloatAxioms.leb_spec. intros Hx Hy.
  apply SFltb_false_leb; apply is_nan_Prim2SF; assumption.
Qed.

Lemma zeros_fle (x y : float) : is_zero x = true -> is_zero y = true -> fle x y.
Proof.
  unfold is_zero, fle. rewrite !FloatAxioms.eqb_spec, FloatAxioms.leb_spec.
  change (Prim2SF zero) with (S754_zero false).
  unfold SFeqb, SFleb, SFcompare.
  destruct (Prim2SF x) as [[]|[]| |[] mx ex], (Prim2SF y) as [[]|[]| |[] my ey];
    simpl; congruence.
Qed.

Lemma max_loop_bounds (l : list float) : forall h,
  is_nan h = false -> no_nan l ->
  is_nan (max_loop h l) = false
  /\ fle h (max_loop h l)
  /\ Forall (fun x => fle x (max_loop h l)) l
  /\ (max_loop h l = h \/ max_loop h l ∈ l).
Proof.
  induction l as [|x l IH]; intros h Hh Hl; simpl.
  - repeat split; [exact Hh | apply fle_refl, Hh | constructor | left; reflexivity].
  - inversion Hl as [|? ? Hx Hl']; subst. rewrite Hx.
    destruct (is_pos_zero x && is_neg_zero h) eqn:Hz.
    + apply andb_prop in Hz as [Hzx Hzh].
      apply andb_prop in Hzx as [Hzx _]. apply andb_prop in Hzh as [Hzh _].
      destruct (IH x Hx Hl') as (Hn & Hle & Hall & Hin).
      repeat split; [exact Hn | | | ].
      * eapply fle_trans; [exact (zeros_fle h x Hzh Hzx) | exact Hle].
      * constructor; assumption.
      * right. destruct Hin as [-> | Hin]; [left | right; exact Hin].
    + destruct (h <? x)%float eqn:Hlt.
      * destruct (IH x Hx Hl') as (Hn & Hle & Hall & Hin).
        repeat split; [exact Hn | | | ].
        -- eapply fle_trans; [apply flt_fle, Hlt | exact Hle].
        -- constructor; assumption.
        -- right. destruct Hin as [-> | Hin]; [left | right; exact Hin].
      * destruct (IH h Hh Hl') as (Hn & Hle & Hall & Hin).
        repeat split; [exact Hn | exact Hle | | ].
        -- constructor; [|exact Hall].
           eapply fle_trans; [apply fnlt_fle; [exact Hh | exact Hx | exact Hlt] | exact Hle].
        -- destruct Hin as [-> | Hin]; [left; reflexivity | right; right; exact Hin].
Qed.

Lemma min_loop_bounds (l : list float) : forall h,
  is_nan h = false -> no_nan l ->
  is_nan (min_loop h l) = false
  /\ fle (min_loop h l) h
  /\ Forall (fun x => fle (min_loop h l) x) l
  /\ (min_loop h l = h \/ min_loop h l ∈ l).
Proof.
  induction l as [|x l IH]; intros h Hh Hl; simpl.
  - repeat split; [exact Hh | apply fle_refl, Hh | constructor | left; reflexivity].
  - inversion Hl as [|? ? Hx Hl']; subst. rewrite Hx.
    destruct (is_neg_zero x && is_pos_zero h) eqn:Hz.
    + apply andb_prop in Hz as [Hzx Hzh].
      apply andb_prop in Hzx as [Hzx _]. apply andb_prop in Hzh as [Hzh _].
      destruct (IH x Hx Hl') as (Hn & Hle & Hall & Hin).
      repeat split; [exact Hn | | | ].
      * eapply fle_trans; [exact Hle | exact (zeros_fle x h Hzx Hzh)].
      * constructor; assumption.
      * right. destruct Hin as [-> | Hin]; [left | right; exact Hin].
    + destruct (x <? h)%float eqn:Hlt.
      * destruct (IH x Hx Hl') as (Hn & Hle & Hall & Hin).
        repeat split; [exact Hn | | | ].
        -- eapply fle_trans; [exact Hle | apply flt_fle, Hlt].
        -- constructor; assumption.
        -- right. destruct Hin as [-> | Hin]; [left | right; exact Hin].
      * destruct (IH h Hh Hl') as (Hn & Hle & Hall & Hin).
        repeat split; [exact Hn | exact Hle | | ].
        -- constructor; [|exact Hall].
           eapply fle_trans; [exact Hle | apply fnlt_fle; [exact Hx | exact Hh | exact Hlt]].
        -- destruct Hin as [-> | Hin]; [left; reflexivity | right; right; exact Hin].
Qed.

(** *** Running totals *)

Lemma js_add_numbers (x y : float) : js_add (VNum x) (VNum y) = VNum (x + y)%float.
Proof. reflexivity. Qed.

Lemma entry_value_carries (item : value) (f : float) :
  carries item f -> entry_value item = Ok (VNum f).
Proof.
  intros [g | m g Hm Ht].
  - apply entry_value_number.
  - rewrite (entry_value_record m (VNum g) Hm). now rewrite Ht.
Qed.

Lemma map_entries_carries (data : list value) (vs : list float) :
  Forall2 carries data vs -> map_entries entry_value data = Ok (VNum <$> vs).
Proof.
  induction 1 as [|item f data vs Hc _ IH]; [reflexivity|].
  simpl. rewrite (entry_value_carries item f Hc). simpl. rewrite IH. reflexivity.
Qed.

Lemma to_number_numbers (fs : list float) : to_number <$> (VNum <$> fs) = fs.
Proof.
  induction fs as [|f fs IH]; [reflexivity|].
  rewrite !fmap_cons. f_equal. exact IH.
Qed.

Lemma reduce_push_cumulative (vs : list float) : forall (acc : list value) (s : float),
  reduce_from push_cumulative (S (length acc)) (VNum <$> vs) (acc ++ [VNum s])
  = (acc ++ [VNum s]) ++ (VNum <$> totals_from s vs).
Proof.
  induction vs as [|v vs IH]; intros acc s; simpl.
  - now rewrite app_nil_r.
  - unfold push_cumulative at 2. simpl.
    replace (array_get (acc ++ [VNum s]) (length acc - 0)) with (VNum s).
    2:{ unfold array_get. rewrite Nat.sub_0_r.
        rewrite lookup_app_r by lia. now rewrite Nat.sub_diag. }
    rewrite js_add_numbers.
    replace (S (S (length acc))) with (S (length (acc ++ [VNum s])))
      by (rewrite length_app; simpl; lia).
    rewrite IH. now rewrite <- !app_assoc.
Qed.

Lemma cumulative_of_numbers (vs : list float) :
  cumulative_of (VNum <$> vs) = VNum <$> running_totals vs.
Proof.
  destruct vs as [|v vs]; [reflexivity|].
  unfold cumulative_of. simpl. unfold push_cumulative at 2. simpl.
  exact (reduce_push_cumulative vs [] v).
Qed.

Lemma totals_from_lookup (vs : list float) : forall (s : float) (k : nat),
  (k < length vs)%nat ->
  totals_from s vs !! k = Some (fold_left PrimFloat.add (take (S k) vs) s).
Proof.
  induction vs as [|v vs IH]; intros s k Hk; simpl in *; [lia|].
  destruct k as [|k]; simpl.
  - destruct vs; reflexivity.
  - apply IH. lia.
Qed.

Lemma running_totals_lookup (vs : list float) (k : nat) :
  (k < length vs)%nat -> running_totals vs !! k = Some (sum_first (S k) vs).
Proof.
  destruct vs as [|v vs]; simpl; [lia|]. intros Hk.
  destruct k as [|k]; unfold sum_first; simpl.
  - destruct vs; reflexivity.
  - apply totals_from_lookup. lia.
Qed.

Lemma sum_entries_carries (data : list value) (vs : list float) :
  Forall2 carries data vs ->
  forall s, sum_entries (VNum s) data = Ok (VNum (fold_left PrimFloat.add vs s)).
Proof.
  induction 1 as [|item f data vs Hc _ IH]; intros s; [reflexivity|].
  simpl. rewrite (entry_value_carries item f Hc). simpl.
  rewrite js_add_numbers. apply IH.
Qed.

Lemma waterfall_carries (data : list value) (vs : list float) :
  Forall2 carries data vs ->
  waterfall data =
    Ok {| wf_values := VNum <$> vs;
          wf_cumulative := VNum <$> running_totals vs;
          wf_maxValue := max_loop neg_infinity (running_totals vs);
          wf_minValue := min_loop infinity (running_totals vs ++ [0%float]);
          wf_range := (max_loop neg_infinity (running_totals vs)
                       - min_loop infinity (running_totals vs ++ [0%float]))%float |}.
Proof.
  intros H. unfold waterfall. rewrite (map_entries_carries data vs H). simpl.
  rewrite cumulative_of_numbers. unfold Math_max, Math_min.
  replace ((VNum <$> running_totals vs) ++ [VNum 0])
    with (VNum <$> (running_totals vs ++ [0%float])) by now rewrite fmap_app.
  now rewrite !to_number_numbers.
Qed.

(** Waterfall on numeric entries.  When every entry carries a number (a
    bare number, or a record with a truthy value), the cumulative
    sequence holds at position [k] the sum of the first [k+1] numbers,
    added left to right in double arithmetic; and unless a running total
    is NaN, the minimum of the scale is at most 0 and at most every
    running total, and the maximum is at least every running total. *)
Theorem waterfall_running_totals (data : list value) (vs : list float) :
  Forall2 carries data vs ->
  exists w, waterfall data = Ok w
    /\ wf_values w = VNum <$> vs
    /\ (forall k, (k < length vs)%nat ->
          wf_cumulative w !! k = Some (VNum (sum_first (S k) vs)))
    /\ wf_range w = (wf_maxValue w - wf_minValue w)%float
    /\ (no_nan (running_totals vs) ->
          fle (wf_minValue w) 0
          /\ Forall (fun c => fle (wf_minValue w) c /\ fle c (wf_maxValue w)) (running_totals vs)).
Proof.
  intros H. eexists. split; [apply (waterfall_carries data vs H)|]. simpl.
  split; [reflexivity|]. split.
  - intros k Hk. rewrite list_lookup_fmap, (running_totals_lookup vs k Hk). reflexivity.
  - split; [reflexivity|]. intros Hn.
    assert (Hn0 : no_nan (running_totals vs ++ [0%float])).
    { apply Forall_app. split; [exact Hn | repeat constructor]. }
    destruct (min_loop_bounds _ infinity eq_refl Hn0) as (_ & _ & Hmin & _).
    destruct (max_loop_bounds _ neg_infinity eq_refl Hn) as (_ & _ & Hmax & _).
    apply Forall_app in Hmin as [Hmin Hzero].
    split.
    + now inversion Hzero.
    + rewrite Forall_forall in *. intros c Hc. split; [apply Hmin | apply Hmax]; exact Hc.
Qed.

Lemma waterfall_running_totals_witness :
  exists w, waterfall [record "Q1" (VNum 5); VNum 0; record "Q3" (VNum (-3))] = Ok w
    /\ wf_values w = VNum <$> [5; 0; -3]%float
    /\ (forall k, (k < length [5; 0; -3]%float)%nat ->
          wf_cumulative w !! k = Some (VNum (sum_first (S k) [5; 0; -3]%float)))
    /\ wf_range w = (wf_maxValue w - wf_minValue w)%float
    /\ (no_nan (running_totals [5; 0; -3]%float) ->
          fle (wf_minValue w) 0
          /\ Forall (fun c => fle (wf_minValue w) c /\ fle c (wf_maxValue w))
               (running_totals [5; 0; -3]%float)).
Proof.
  apply (waterfall_running_totals
           [record "Q1" (VNum 5); VNum 0; record "Q3" (VNum (-3))] [5; 0; -3]%float).
  repeat constructor.
Defined.

(** C6.  A record whose value is 0 is extracted as the record itself
    (see C3), and [+] then concatenates: with the deltas 5, 0, -3 given as
    records the cumulative sequence is 5, "5[object Object]",
    "5[object Object]-3" instead of 5, 5, 2, and the maximum, the minimum
    and the range of the scale are NaN. *)
Theorem waterfall_zero_record_breaks_totals :
  exists w,
    waterfall [record "Q1" (VNum 5); record "Q2" (VNum 0); record "Q3" (VNum (-3))] = Ok w
    /\ wf_values w = [VNum 5; record "Q2" (VNum 0); VNum (-3)]
    /\ wf_cumulative w = [VNum 5; VStr "5[object Object]"; VStr "5[object Object]-3"]
    /\ wf_cumulative w !! 1%nat <> Some (VNum (sum_first 2 [5; 0; -3]%float))
    /\ is_nan (wf_maxValue w) = true
    /\ is_nan (wf_minValue w) = true
    /\ is_nan (wf_range w) = true.
Proof.
  eexists. split; [vm_compute; reflexivity|].
  repeat split; try (vm_compute; reflexivity).
  vm_compute. discriminate.
Qed.

(** Donut on numeric entries.  When every entry carries a number, the
    total written in the centre is the sum of the numbers, added left to
    right in double arithmetic starting from 0. *)
Theorem donut_total_sum (data : list value) (vs : list float) :
  Forall2 carries data vs ->
  donut_total data = Ok (VNum (fold_left PrimFloat.add vs 0%float))
  /\ donut_center_text data = Ok (number_to_string (fold_left PrimFloat.add vs 0%float)).
Proof.
  intros H. unfold donut_center_text, donut_total.
  rewrite (sum_entries_carries data vs H). split; reflexivity.
Qed.

Lemma donut_total_sum_witness :
  donut_total [record "Desktop" (VNum 45); record "Mobile" (VNum 35); record "Tablet" (VNum 20)]
    = Ok (VNum (fold_left PrimFloat.add [45; 35; 20]%float 0%float))
  /\ donut_center_text
       [record "Desktop" (VNum 45); record "Mobile" (VNum 35); record "Tablet" (VNum 20)]
     = Ok (number_to_string (fold_left PrimFloat.add [45; 35; 20]%float 0%float)).
Proof.
  apply (donut_total_sum
           [record "Desktop" (VNum 45); record "Mobile" (VNum 35); record "Tablet" (VNum 20)]
           [45; 35; 20]%float).
  repeat constructor.
Defined.

(** C8.  For 45, 35, 20 the centre text is "100".  A record whose value
    is 0 enters the sum as an object (see C3), which turns the total into
    text: for the values 0 and 5, whose sum is 5, the centre shows
    "0[object Object]5". *)
Theorem donut_zero_record_breaks_total :
  donut_center_text [record "A" (VNum 45); record "B" (VNum 35); record "C" (VNum 20)] = Ok "100"
  /\ donut_total [record "A" (VNum 0); record "B" (VNum 5)] = Ok (VStr "0[object Object]5")
  /\ donut_center_text [record "A" (VNum 0); record "B" (VNum 5)] = Ok "0[object Object]5"
  /\ donut_center_text [VNum 0; VNum 5] = Ok "5".
Proof.
  repeat split; vm_compute; reflexivity.
Qed.

(** *** Hex colours *)

(** Membership in a list written out. *)
Ltac in_list := repeat (first [apply list_elem_of_here | apply list_elem_of_further]).

Lemma hex_chars_digit (c : ascii) : c ∈ hex_chars <-> is_hex_digit c = true.
Proof.
  split.
  - intros H. unfold hex_chars in H. simpl in H.
    repeat (apply elem_of_cons in H as [-> | H]; [reflexivity|]).
    now apply elem_of_nil in H.
  - destruct c as [[] [] [] [] [] [] [] []]; intros H; try discriminate H;
      unfold hex_chars; simpl; in_list.
Qed.

Lemma hex_char_not_hash (c : ascii) : c ∈ hex_chars -> c <> "#"%char.
Proof.
  intros H ->. apply hex_chars_digit in H. discriminate H.
Qed.

Lemma strip_hash_none (c : ascii) (s : string) :
  c <> "#"%char -> strip_hash (String c s) = String c s.
Proof.
  intros Hc. destruct c as [[] [] [] [] [] [] [] []]; try reflexivity. now destruct Hc.
Qed.

Lemma hex_exec_hex6 (c1 c2 c3 c4 c5 c6 : ascii) (s : string) :
  Forall (fun c => c ∈ hex_chars) [c1; c2; c3; c4; c5; c6] ->
  s = string_of_list_ascii [c1; c2; c3; c4; c5; c6]
  \/ s = String "#" (string_of_list_ascii [c1; c2; c3; c4; c5; c6]) ->
  hex_exec s
  = Some (string_of_list_ascii [c1; c2], string_of_list_ascii [c3; c4], string_of_list_ascii [c5; c6]).
Proof.
  intros Hall Hs.
  assert (Hd : forallb is_hex_digit [c1; c2; c3; c4; c5; c6] = true).
  { apply forallb_forall. intros c Hc. apply hex_chars_digit.
    rewrite Forall_forall in Hall. apply Hall, list_elem_of_In, Hc. }
  assert (H1 : c1 <> "#"%char).
  { apply hex_char_not_hash. now inversion Hall. }
  unfold hex_exec. destruct Hs as [-> | ->].
  - change (string_of_list_ascii [c1; c2; c3; c4; c5; c6])
      with (String c1 (string_of_list_ascii [c2; c3; c4; c5; c6])).
    rewrite (strip_hash_none c1 _ H1).
    change (String c1 (string_of_list_ascii [c2; c3; c4; c5; c6]))
      with (string_of_list_ascii [c1; c2; c3; c4; c5; c6]).
    rewrite list_ascii_of_string_of_list_ascii. now rewrite Hd.
  - change (strip_hash (String "#" (string_of_list_ascii [c1; c2; c3; c4; c5; c6])))
      with (string_of_list_ascii [c1; c2; c3; c4; c5; c6]).
    rewrite list_ascii_of_string_of_list_ascii. now rewrite Hd.
Qed.

Lemma pairs_ok : forallb (fun c => forallb (pair_ok c) hex_chars) hex_chars = true.
Proof. vm_compute. reflexivity. Qed.

Lemma pair_ok_spec (c d : ascii) :
  c ∈ hex_chars -> d ∈ hex_chars ->
  parseInt16 (string_of_list_ascii [c; d]) = Z2F (hex_pair c d)
  /\ to_hex2 (Z2F (hex_pair c d)) = string_of_list_ascii [lower c; lower d]
  /\ 0 <= hex_pair c d <= 255.
Proof.
  intros Hc Hd. pose proof pairs_ok as H.
  rewrite forallb_forall in H. specialize (H c (proj1 (list_elem_of_In _ _) Hc)).
  rewrite forallb_forall in H. specialize (H d (proj1 (list_elem_of_In _ _) Hd)).
  unfold pair_ok in H.
  apply andb_prop in H as [H H4]. apply andb_prop in H as [H H3].
  apply andb_prop in H as [H1 H2].
  apply FloatAxioms.Leibniz.eqb_spec in H1. apply String.eqb_eq in H2.
  repeat split; [exact H1 | exact H2 | lia | lia].
Qed.

Lemma hexToRgb_hex6 (c1 c2 c3 c4 c5 c6 : ascii) (s : string) :
  Forall (fun c => c ∈ hex_chars) [c1; c2; c3; c4; c5; c6] ->
  s = string_of_list_ascii [c1; c2; c3; c4; c5; c6]
  \/ s = String "#" (string_of_list_ascii [c1; c2; c3; c4; c5; c6]) ->
  hexToRgb (VStr s)
  = {| r := Z2F (hex_pair c1 c2); g := Z2F (hex_pair c3 c4); b := Z2F (hex_pair c5 c6) |}.
Proof.
  intros Hall Hs. unfold hexToRgb. simpl to_string.
  rewrite (hex_exec_hex6 c1 c2 c3 c4 c5 c6 s Hall Hs).
  rewrite Forall_forall in Hall.
  assert (Hin : forall c, c ∈ [c1; c2; c3; c4; c5; c6] -> c ∈ hex_chars) by exact Hall.
  destruct (pair_ok_spec c1 c2) as (-> & _); [apply Hin; in_list..|].
  destruct (pair_ok_spec c3 c4) as (-> & _); [apply Hin; in_list..|].
  destruct (pair_ok_spec c5 c6) as (-> & _); [apply Hin; in_list..|].
  reflexivity.
Qed.

Lemma hex_exec_form (s g1 g2 g3 : string) :
  hex_exec s = Some (g1, g2, g3) -> hex6_form s.
Proof.
  unfold hex_exec.
  set (body := strip_hash s).
  assert (Hs : s = body \/ s = String "#" body).
  { subst body. destruct s as [|c s']; [now left|].
    destruct c as [[] [] [] [] [] [] [] []]; try (now left). now right. }
  destruct (list_ascii_of_string body) as [|c1 [|c2 [|c3 [|c4 [|c5 [|c6 [|c7 l]]]]]]] eqn:El;
    try discriminate.
  destruct (forallb is_hex_digit [c1; c2; c3; c4; c5; c6]) eqn:Hd; [|discriminate].
  intros _. exists [c1; c2; c3; c4; c5; c6].
  assert (Hb : body = string_of_list_ascii [c1; c2; c3; c4; c5; c6]).
  { rewrite <- El. now rewrite string_of_list_ascii_of_string. }
  split.
  - split; [reflexivity|]. apply Forall_forall. intros c Hc.
    apply hex_chars_digit. rewrite forallb_forall in Hd. apply Hd, list_elem_of_In, Hc.
  - rewrite <- Hb. exact Hs.
Qed.

(** C9.  A string of six hex digits, with or without [#], parses to the
    three channels its digit pairs denote, each between 0 and 255, and
    writing the channels back as hex digits gives the same six digits in
    lower case.  Any value whose string form is not of that shape parses
    to black. *)
Theorem hexToRgb_roundtrip :
  (forall (l : list ascii) (s : string),
      hex6 l ->
      s = string_of_list_ascii l \/ s = String "#" (string_of_list_ascii l) ->
      rgbToHex (hexToRgb (VStr s)) = string_of_list_ascii (lower <$> l)
      /\ exists n1 n2 n3,
           hexToRgb (VStr s) = {| r := Z2F n1; g := Z2F n2; b := Z2F n3 |}
           /\ 0 <= n1 <= 255 /\ 0 <= n2 <= 255 /\ 0 <= n3 <= 255)
  /\ (forall v : value, ~ hex6_form (to_string v) -> hexToRgb v = black).
Proof.
  split.
  - intros l s [Hlen Hall] Hs.
    destruct l as [|c1 [|c2 [|c3 [|c4 [|c5 [|c6 [|c7 l]]]]]]]; try discriminate Hlen.
    rewrite (hexToRgb_hex6 c1 c2 c3 c4 c5 c6 s Hall Hs).
    rewrite Forall_forall in Hall.
    assert (Hin : forall c, c ∈ [c1; c2; c3; c4; c5; c6] -> c ∈ hex_chars) by exact Hall.
    destruct (pair_ok_spec c1 c2) as (_ & E1 & B1); [apply Hin; in_list..|].
    destruct (pair_ok_spec c3 c4) as (_ & E2 & B2); [apply Hin; in_list..|].
    destruct (pair_ok_spec c5 c6) as (_ & E3 & B3); [apply Hin; in_list..|].
    split.
    + unfold rgbToHex. simpl r. simpl g. simpl b. rewrite E1, E2, E3. reflexivity.
    + exists (hex_pair c1 c2), (hex_pair c3 c4), (hex_pair c5 c6). repeat split; lia.
  - intros v Hv. unfold hexToRgb.
    destruct (hex_exec (to_string v)) as [[[g1 g2] g3]|] eqn:E; [|reflexivity].
    destruct Hv. exact (hex_exec_form _ _ _ _ E).
Qed.
(** *** Shades *)

Lemma max_loop_no_nan (l : list float) : forall h,
  is_nan (max_loop h l) = false -> no_nan l.
Proof.
  induction l as [|x l IH]; intros h H; [constructor|]. simpl in H.
  destruct (is_nan x) eqn:Ex; [discriminate H|].
  constructor; [exact Ex|].
  destruct (is_pos_zero x && is_neg_zero h); [exact (IH _ H)|].
  destruct (h <? x)%float; exact (IH _ H).
Qed.

Lemma min_loop_no_nan (l : list float) : forall h,
  is_nan (min_loop h l) = false -> no_nan l.
Proof.
  induction l as [|x l IH]; intros h H; [constructor|]. simpl in H.
  destruct (is_nan x) eqn:Ex; [discriminate H|].
  constructor; [exact Ex|].
  destruct (is_neg_zero x && is_pos_zero h); [exact (IH _ H)|].
  destruct (x <? h)%float; exact (IH _ H).
Qed.

Lemma clamp_bounds (y : float) :
  is_nan (min_loop infinity [255%float; max_loop neg_infinity [0%float; y]]) = false ->
  fle 0 (min_loop infinity [255%float; max_loop neg_infinity [0%float; y]])
  /\ fle (min_loop infinity [255%float; max_loop neg_infinity [0%float; y]]) 255.
Proof.
  set (m := max_loop neg_infinity [0%float; y]).
  set (res := min_loop infinity [255%float; m]).
  intros Hnan.
  assert (Hl2 : no_nan [255%float; m]) by exact (min_loop_no_nan _ _ Hnan).
  assert (Hm : is_nan m = false).
  { inversion Hl2 as [|? ? _ Hl]; subst. now inversion Hl. }
  assert (Hl1 : no_nan [0%float; y]) by exact (max_loop_no_nan _ _ Hm).
  destruct (max_loop_bounds _ neg_infinity eq_refl Hl1) as (_ & _ & Hmax & _).
  fold m in Hmax.
  assert (H0m : fle 0 m) by now inversion Hmax.
  destruct (min_loop_bounds _ infinity eq_refl Hl2) as (_ & _ & Hmin & Hin).
  fold res in Hmin, Hin.
  assert (H255 : fle res 255) by now inversion Hmin.
  split; [|exact H255].
  destruct Hin as [Hin | Hin].
  - rewrite Hin in H255. discriminate H255.
  - apply elem_of_cons in Hin as [-> | Hin]; [reflexivity|].
    apply elem_of_cons in Hin as [-> | Hin]; [exact H0m|].
    now apply elem_of_nil in Hin.
Qed.

(** *** Doubles that are numbers *)

Lemma shr_1_nonneg (mrs : shr_record) : 0 <= shr_m mrs -> 0 <= shr_m (shr_1 mrs).
Proof.
  destruct mrs as [m r s]. simpl. destruct m as [|p|p]; [simpl; lia| |lia].
  intros _. destruct p; simpl; lia.
Qed.

Lemma iter_shr_1_nonneg (p : positive) : forall mrs,
  0 <= shr_m mrs -> 0 <= shr_m (SpecFloat.iter_pos shr_1 p mrs).
Proof.
  induction p as [p IH|p IH|]; intros mrs H; simpl.
  - apply IH, IH, shr_1_nonneg, H.
  - apply IH, IH, H.
  - apply shr_1_nonneg, H.
Qed.

Lemma shr_fexp_nonneg (m e : Z) (l : location) :
  0 <= m -> 0 <= shr_m (fst (shr_fexp prec emax m e l)).
Proof.
  intros H. unfold shr_fexp, shr.
  assert (H0 : 0 <= shr_m (shr_record_of_loc m l)) by (destruct l as [|[]]; exact H).
  destruct (_ - e) as [|p|p]; simpl; [exact H0 | apply iter_shr_1_nonneg, H0 | exact H0].
Qed.

Lemma round_nearest_even_nonneg (m : Z) (l : location) :
  0 <= m -> 0 <= round_nearest_even m l.
Proof.
  intros H. destruct l as [|[]]; simpl; try lia. destruct (Z.even m); lia.
Qed.

Lemma binary_round_aux_not_nan (sx : bool) (mx ex : Z) (lx : location) :
  0 <= mx -> binary_round_aux prec emax sx mx ex lx <> S754_nan.
Proof.
  intros H. unfold binary_round_aux.
  pose proof (shr_fexp_nonneg mx ex lx H) as H1.
  destruct (shr_fexp prec emax mx ex lx) as [mrs' e']. simpl in H1.
  pose proof (shr_fexp_nonneg _ e' loc_Exact
                (round_nearest_even_nonneg _ (loc_of_shr_record mrs') H1)) as H2.
  destruct (shr_fexp prec emax _ e' loc_Exact) as [mrs'' e'']. simpl in H2.
  destruct (shr_m mrs'') as [|p|p]; [discriminate | | lia].
  destruct (e'' <=? emax - prec); discriminate.
Qed.

Lemma binary_round_not_nan (sx : bool) (mx : positive) (ex : Z) :
  binary_round prec emax sx mx ex <> S754_nan.
Proof.
  unfold binary_round. destruct (shl_align _ _ _) as [mz ez].
  apply binary_round_aux_not_nan. lia.
Qed.

Lemma binary_normalize_not_nan (m e : Z) (s : bool) :
  binary_normalize prec emax m e s <> S754_nan.
Proof.
  destruct m; simpl; [discriminate | apply binary_round_not_nan..].
Qed.

Lemma Prim2SF_finite (x : float) :
  is_nan x = false -> is_infinity x = false -> finite_sf (Prim2SF x).
Proof.
  intros Hn Hi. unfold Prim2SF. rewrite Hn. destruct (is_zero x); [exact I|]. rewrite Hi.
  destruct (Z.frexp x) as [r exp].
  destruct (shr_fexp _ _ _ _ _) as [sh e']. destruct (shr_m sh); exact I.
Qed.

Lemma SF2Prim_not_nan (s : spec_float) : s <> S754_nan -> is_nan (SF2Prim s) = false.
Proof.
  intros Hs. destruct s as [[]|[]| |sg m e]; try reflexivity; [congruence|].
  apply is_nan_Prim2SF. unfold SF2Prim.
  assert (H : Prim2SF (Z.ldexp (of_uint63 (Uint63Axioms.of_Z (Z.pos m))) e) <> S754_nan).
  { rewrite Z_ldexp_spec, of_uint63_spec. unfold SFldexp.
    pose proof (binary_normalize_not_nan
                  (Uint63Axioms.to_Z (Uint63Axioms.of_Z (Z.pos m))) 0 false) as Hb.
    destruct (binary_normalize _ _ _ _ _) as [| | |s' m' e']; try discriminate; [congruence|].
    apply binary_round_not_nan. }
  destruct sg; [|exact H].
  rewrite opp_spec. destruct (Prim2SF _); try discriminate. congruence.
Qed.

Lemma Z2F_not_nan (z : Z) : is_nan (Z2F z) = false.
Proof. apply SF2Prim_not_nan, binary_normalize_not_nan. Qed.


Lemma SFmul_finite_not_nan (x y : spec_float) :
  finite_sf x -> finite_sf y -> SF64mul x y <> S754_nan.
Proof.
  destruct x as [sx|sx| |sx mx ex], y as [sy|sy| |sy my ey]; simpl; intros Hx Hy;
    try contradiction; try discriminate.
  apply binary_round_aux_not_nan. lia.
Qed.

Lemma SFmul_number_finite (x : spec_float) (sy : bool) (my : positive) (ey : Z) :
  x <> S754_nan -> SF64mul x (S754_finite sy my ey) <> S754_nan.
Proof.
  destruct x as [sx|sx| |sx mx ex]; simpl; intros Hx; try discriminate; [congruence|].
  apply binary_round_aux_not_nan. lia.
Qed.

Lemma SFsub_finite_number (sx : bool) (mx : positive) (ex : Z) (y : spec_float) :
  y <> S754_nan -> SF64sub (S754_finite sx mx ex) y <> S754_nan.
Proof.
  destruct y as [sy|sy| |sy my ey]; simpl; intros Hy; try discriminate; [congruence|].
  apply binary_normalize_not_nan.
Qed.

Lemma mul_finite_not_nan (x y : float) :
  finite_sf (Prim2SF x) -> finite_sf (Prim2SF y) -> is_nan (x * y) = false.
Proof.
  intros Hx Hy. apply is_nan_Prim2SF. rewrite mul_spec. now apply SFmul_finite_not_nan.
Qed.

(** The brightness factor of an index is a number (it is minus infinity
    once the index exceeds the range of doubles). *)
Lemma shade_factor_not_nan (i : nat) : is_nan (shade_factor i) = false.
Proof.
  unfold shade_factor. apply is_nan_Prim2SF. rewrite sub_spec, mul_spec.
  change (Prim2SF 1) with (S754_finite false 4503599627370496 (-52)).
  apply SFsub_finite_number.
  change (Prim2SF 0.15) with (S754_finite false 5404319552844595 (-55)).
  apply SFmul_number_finite. apply is_nan_Prim2SF, Z2F_not_nan.
Qed.

Lemma Math_round_not_nan (x : float) : is_nan x = false -> is_nan (Math_round x) = false.
Proof.
  intros H. unfold Math_round. destruct (F2frac x) as [[n d]|]; [|exact H].
  destruct (n mod d =? 0); [exact H|].
  destruct (_ && _); [reflexivity | apply Z2F_not_nan].
Qed.

Lemma clamp_in_range (y : float) :
  is_nan y = false ->
  let res := min_loop infinity [255%float; max_loop neg_infinity [0%float; y]] in
  is_nan res = false /\ fle 0 res /\ fle res 255.
Proof.
  intros Hy res.
  assert (Hl1 : no_nan [0%float; y]) by (repeat constructor; exact Hy).
  destruct (max_loop_bounds _ neg_infinity eq_refl Hl1) as (Hm & _).
  assert (Hl2 : no_nan [255%float; max_loop neg_infinity [0%float; y]])
    by (repeat constructor; exact Hm).
  destruct (min_loop_bounds _ infinity eq_refl Hl2) as (Hr & _).
  split; [exact Hr|]. exact (clamp_bounds y Hr).
Qed.

Lemma scale_channel_in_range (c factor : float) :
  finite_sf (Prim2SF c) -> finite_sf (Prim2SF factor) ->
  is_nan (scale_channel c factor) = false
  /\ fle 0 (scale_channel c factor) /\ fle (scale_channel c factor) 255.
Proof.
  intros Hc Hf.
  exact (clamp_in_range (Math_round (c * factor))
           (Math_round_not_nan _ (mul_finite_not_nan c factor Hc Hf))).
Qed.

Lemma zero_times_finite (f : float) :
  finite_sf (Prim2SF f) -> (0 * f)%float = 0%float \/ (0 * f)%float = (-0)%float.
Proof.
  intros Hf.
  assert (H : exists s, Prim2SF (0 * f) = S754_zero s).
  { rewrite mul_spec. change (Prim2SF 0) with (S754_zero false).
    destruct (Prim2SF f) as [sy|sy| |sy my ey]; try contradiction; simpl; eexists; reflexivity. }
  destruct H as [s H]. rewrite <- (SF2Prim_Prim2SF (0 * f)), H.
  destruct s; [right | left]; reflexivity.
Qed.

Lemma scale_channel_zero (f : float) :
  finite_sf (Prim2SF f) -> number_to_string (scale_channel 0 f) = "0".
Proof.
  intros Hf. unfold scale_channel.
  destruct (zero_times_finite f Hf) as [-> | ->]; vm_compute; reflexivity.
Qed.

Lemma channels_finite : forallb small_channel_finite (Z.of_nat <$> seq 0 256) = true.
Proof. vm_compute. reflexivity. Qed.

Lemma channel_finite (n : Z) : 0 <= n <= 255 -> finite_sf (Prim2SF (Z2F n)).
Proof.
  intros Hn. pose proof channels_finite as H. rewrite forallb_forall in H.
  assert (Hs : small_channel_finite n = true).
  { apply H, list_elem_of_In, list_elem_of_fmap.
    exists (Z.to_nat n). split; [lia|]. apply list_elem_of_In, in_seq. lia. }
  unfold small_channel_finite in Hs. apply andb_prop in Hs as [H1 H2].
  apply Prim2SF_finite; [now destruct (is_nan _) | now destruct (is_infinity _)].
Qed.


Lemma channels_ok : forallb channel_ok (Z.of_nat <$> seq 0 256) = true.
Proof. vm_compute. reflexivity. Qed.

Lemma channel_unchanged (n : Z) :
  0 <= n <= 255 -> number_to_string (scale_channel (Z2F n) (shade_factor 0)) = decimal n.
Proof.
  intros Hn. pose proof channels_ok as H. rewrite forallb_forall in H.
  apply String.eqb_eq, H, list_elem_of_In, list_elem_of_fmap.
  exists (Z.to_nat n). split; [lia|]. apply list_elem_of_In, in_seq. lia.
Qed.

Lemma getColor_shade (colors : list value) (i : nat) :
  getColor colors i (VStr "shade") = adjustBrightness (array_get colors 0) (shade_factor i).
Proof. reflexivity. Qed.

Lemma zrange_elem (n : nat) : forall a z, a <= z < a + Z.of_nat n -> In z (zrange n a).
Proof.
  induction n as [|n IH]; intros a z Hz; [lia|]. simpl.
  destruct (Z.eq_dec a z) as [-> | Hne]; [now left|].
  right. apply IH. lia.
Qed.

Lemma factors_finite : forallb factor_finite (zrange (Z.to_nat 65536) 0) = true.
Proof. vm_compute. reflexivity. Qed.

Lemma shade_factor_finite_small (i : nat) :
  Z.of_nat i < 65536 -> is_infinity (shade_factor i) = false.
Proof.
  intros Hi. pose proof factors_finite as H. rewrite forallb_forall in H.
  specialize (H (Z.of_nat i) (zrange_elem (Z.to_nat 65536) 0 (Z.of_nat i) ltac:(lia))).
  unfold factor_finite in H. unfold shade_factor. now destruct (is_infinity _).
Qed.

Lemma shade_factor_finite_sf (i : nat) :
  is_infinity (shade_factor i) = false -> finite_sf (Prim2SF (shade_factor i)).
Proof. intros H. exact (Prim2SF_finite _ (shade_factor_not_nan i) H). Qed.

Lemma hexToRgb_other (v : value) : ~ hex6_form (to_string v) -> hexToRgb v = black.
Proof.
  intros Hv. unfold hexToRgb.
  destruct (hex_exec (to_string v)) as [[[g1 g2] g3]|] eqn:E; [|reflexivity].
  destruct Hv. exact (hex_exec_form _ _ _ _ E).
Qed.

(** C5, as the class has it.  When the first colour of the palette is in
    six-digit hex form, 'shade' mode returns the text [rgb(r,g,b)] whose
    channels are the parsed channels of that colour, each multiplied by
    [1 - i * 0.15] in double arithmetic, rounded by [Math.round] and
    clamped; whenever the factor is finite every channel is a number
    between 0 and 255, and at index 0 the channels are those of the base
    colour.  When the first colour is a primitive value in any other
    form, or is missing, it is parsed as black and, for a finite factor,
    the result is [rgb(0,0,0)].  The factor is never NaN and it is finite
    for every index below 65536. *)
Theorem getColor_shade_hex6 (colors : list value) (i : nat) :
  (forall (s : string) (c1 c2 c3 c4 c5 c6 : ascii),
      Forall (fun c => c ∈ hex_chars) [c1; c2; c3; c4; c5; c6] ->
      s = string_of_list_ascii [c1; c2; c3; c4; c5; c6]
      \/ s = String "#" (string_of_list_ascii [c1; c2; c3; c4; c5; c6]) ->
      colors !! 0%nat = Some (VStr s) ->
      let f := shade_factor i in
      let red := scale_channel (Z2F (hex_pair c1 c2)) f in
      let green := scale_channel (Z2F (hex_pair c3 c4)) f in
      let blue := scale_channel (Z2F (hex_pair c5 c6)) f in
      getColor colors i (VStr "shade") = VStr (rgb_text red green blue)
      /\ (is_infinity f = false ->
            Forall (fun ch => is_nan ch = false /\ fle 0 ch /\ fle ch 255) [red; green; blue])
      /\ getColor colors 0 (VStr "shade")
         = VStr ("rgb(" +:+ decimal (hex_pair c1 c2) +:+ "," +:+ decimal (hex_pair c3 c4)
                   +:+ "," +:+ decimal (hex_pair c5 c6) +:+ ")"))
  /\ (primitive (array_get colors 0) = true ->
      ~ hex6_form (to_string (array_get colors 0)) ->
      hexToRgb (array_get colors 0) = black
      /\ (is_infinity (shade_factor i) = false ->
            getColor colors i (VStr "shade") = VStr "rgb(0,0,0)"))
  /\ is_nan (shade_factor i) = false
  /\ (Z.of_nat i < 65536 -> is_infinity (shade_factor i) = false).
Proof.
  split; [|split; [|split; [apply shade_factor_not_nan | apply shade_factor_finite_small]]].
  - intros s c1 c2 c3 c4 c5 c6 Hall Hs H0 f red green blue.
    assert (Hbase : array_get colors 0 = VStr s) by (unfold array_get; now rewrite H0).
    rewrite !getColor_shade, Hbase. unfold adjustBrightness.
    rewrite (hexToRgb_hex6 c1 c2 c3 c4 c5 c6 s Hall Hs). simpl.
    rewrite Forall_forall in Hall.
    assert (Hin : forall c, c ∈ [c1; c2; c3; c4; c5; c6] -> c ∈ hex_chars) by exact Hall.
    destruct (pair_ok_spec c1 c2) as (_ & _ & B1); [apply Hin; in_list..|].
    destruct (pair_ok_spec c3 c4) as (_ & _ & B2); [apply Hin; in_list..|].
    destruct (pair_ok_spec c5 c6) as (_ & _ & B3); [apply Hin; in_list..|].
    split; [reflexivity|]. split.
    + intros Hf. pose proof (shade_factor_finite_sf i Hf) as Hsf.
      repeat (apply Forall_cons; split;
              [apply scale_channel_in_range; [apply channel_finite; assumption | exact Hsf]|]).
      apply Forall_nil_2.
    + unfold rgb_text.
      now rewrite (channel_unchanged _ B1), (channel_unchanged _ B2), (channel_unchanged _ B3).
  - intros _ Hv. pose proof (hexToRgb_other _ Hv) as Hb. split; [exact Hb|].
    intros Hf. rewrite getColor_shade. unfold adjustBrightness. rewrite Hb. simpl.
    unfold rgb_text. rewrite (scale_channel_zero _ (shade_factor_finite_sf i Hf)). reflexivity.
Qed.

Lemma getColor_shade_hex6_witness :
  getColor [VStr "#667eea"; VStr "#764ba2"] 1 (VStr "shade") = VStr "rgb(87,107,199)"
  /\ getColor [VStr "#667eea"; VStr "#764ba2"] 0 (VStr "shade") = VStr "rgb(102,126,234)"
  /\ getColor [VStr "red"] 1 (VStr "shade") = VStr "rgb(0,0,0)"
  /\ getColor [] 1 (VStr "shade") = VStr "rgb(0,0,0)".
Proof.
  destruct (getColor_shade_hex6 [VStr "#667eea"; VStr "#764ba2"] 1) as (Hhex & _).
  destruct (Hhex "#667eea" "6"%char "6"%char "7"%char "e"%char "e"%char "a"%char) as (H1 & _ & H0).
  { repeat constructor; unfold hex_chars; simpl; in_list. }
  { right. reflexivity. }
  { reflexivity. }
  destruct (getColor_shade_hex6 [VStr "red"] 1) as (_ & Hred & _ & Hfin).
  destruct Hred as (_ & Hred); [reflexivity | |].
  { intros (l & (Hlen & _) & [E | E]);
      destruct l as [|a [|b [|c [|d [|e [|f [|g l]]]]]]]; discriminate. }
  destruct (getColor_shade_hex6 [] 1) as (_ & Hnone & _ & _).
  destruct Hnone as (_ & Hnone); [reflexivity | |].
  { intros (l & (Hlen & _) & [E | E]);
      destruct l as [|a [|b [|c [|d [|e [|f [|g l]]]]]]]; discriminate. }
  split; [rewrite H1; vm_compute; reflexivity|].
  split; [rewrite H0; vm_compute; reflexivity|].
  split; [apply Hred, Hfin; lia | apply Hnone, Hfin; lia].
Defined.

(** C5, as stated, fails on a palette whose first colour is not in
    six-digit hex form: the three-digit white [#fff] is parsed as black,
    so at index 0 'shade' returns [rgb(0,0,0)], not the base colour. *)
Lemma getColor_shade_short_hex_is_black :
  getColor [VStr "#fff"] 0 (VStr "shade") = VStr "rgb(0,0,0)"
  /\ getColor [VStr "#fff"] 0 (VStr "shade") <> array_get [VStr "#fff"] 0
  /\ hexToRgb (VStr "#fff") = black.
Proof.
  split; [vm_compute; reflexivity|].
  split; [vm_compute; discriminate | vm_compute; reflexivity].
Qed.

(** The factor is a double: at index 2 it is the double below 0.7, and a
    channel of 45 is scaled to 31.499999999999996, which rounds to 31,
    where the exact product 31.5 would round to 32. *)
Lemma getColor_shade_double_rounding :
  getColor [VStr "#2d2d2d"] 2 (VStr "shade") = VStr "rgb(31,31,31)"
  /\ (Z2F 45 * shade_factor 2)%float = 31.499999999999996%float.
Proof.
  split; vm_compute; reflexivity.
Qed.

(** *** Theme resolution *)

Lemma opt_insert_eq (o : gmap string value) (k : string) (v : value) :
  opt (<[k := v]> o) k = v.
Proof. unfold opt. now rewrite lookup_insert_eq. Qed.

Lemma opt_insert_ne (o : gmap string value) (k k' : string) (v : value) :
  k <> k' -> opt (<[k := v]> o) k' = opt o k'.
Proof. intros H. unfold opt. now rewrite lookup_insert_ne. Qed.

Lemma opt_spread_l (a b : gmap string value) (k : string) (v : value) :
  b !! k = Some v -> opt (spread a b) k = v.
Proof. intros H. unfold opt, spread. now rewrite (lookup_union_Some_l b a k v H). Qed.

Lemma opt_spread_r (a b : gmap string value) (k : string) :
  b !! k = None -> opt (spread a b) k = opt a k.
Proof. intros H. unfold opt, spread. now rewrite (lookup_union_r b a k H). Qed.

Lemma js_get_truthy (v : value) (k : string) :
  truthy v = true -> js_get v k = Ok (field v k).
Proof. destruct v; intros H; try discriminate H; reflexivity. Qed.

Lemma table_theme_truthy (o : gmap string value) : truthy (table_theme o) = true.
Proof.
  unfold table_theme, js_or.
  destruct (truthy (obj_get themes (to_string (opt o "theme")))) eqn:E; [exact E | reflexivity].
Qed.

Lemma explicit_present (o : gmap string value) (k dflt : string) :
  explicit (opt o k) dflt = true -> <[k := opt o k]> o = o.
Proof.
  unfold explicit, opt. intros H. apply insert_id.
  destruct (o !! k) as [v|]; [reflexivity | discriminate H].
Qed.

Lemma not_explicit (v : value) (dflt : string) :
  negb (truthy v) || strict_eq_str v dflt = negb (explicit v dflt).
Proof. unfold explicit. destruct (truthy v), (strict_eq_str v dflt); reflexivity. Qed.

(** [applyTheme] never throws and computes the colours by precedence. *)
Lemma applyTheme_resolve (o : gmap string value) : applyTheme o = Ok (resolve_theme o).
Proof.
  unfold applyTheme, resolve_theme.
  destruct (truthy (opt o "customTheme")) eqn:Hc.
  - rewrite !(js_get_truthy _ _ Hc). simpl.
    rewrite opt_insert_ne by discriminate. reflexivity.
  - fold theme_dark. change (obj_get themes "dark") with theme_dark. fold (table_theme o).
    pose proof (table_theme_truthy o) as Ht.
    rewrite !(js_get_truthy _ _ Ht).
    rewrite !not_explicit.
    destruct (explicit (opt o "backgroundColor") "#ffffff") eqn:Eb; simpl.
    + rewrite (explicit_present o "backgroundColor" "#ffffff" Eb).
      rewrite ?not_explicit.
      destruct (explicit (opt o "textColor") "#333333") eqn:Et; simpl.
      * now rewrite (explicit_present o "textColor" "#333333" Et).
      * reflexivity.
    + rewrite opt_insert_ne by discriminate.
      rewrite ?not_explicit.
      destruct (explicit (opt o "textColor") "#333333") eqn:Et; simpl.
      * assert (Hid : <["textColor" := opt o "textColor"]>
                        (<["backgroundColor" := field (table_theme o) "backgroundColor"]> o)
                      = <["backgroundColor" := field (table_theme o) "backgroundColor"]> o).
        { apply insert_id. rewrite lookup_insert_ne by discriminate.
          unfold explicit, opt in *. destruct (o !! "textColor"); [reflexivity | discriminate Et]. }
        now rewrite Hid.
      * reflexivity.
Qed.

Lemma colours_resolve_table (o : gmap string value) (th : value) :
  truthy (opt o "customTheme") = false ->
  table_theme o = th ->
  explicit (opt o "backgroundColor") "#ffffff" = false ->
  explicit (opt o "textColor") "#333333" = false ->
  colours (resolve_theme o)
  = (field th "backgroundColor", field th "textColor", field th "gridColor").
Proof.
  intros Hc Hth Hb Htx. unfold colours, resolve_theme. rewrite Hc, Hb, Htx, Hth.
  rewrite opt_insert_eq.
  rewrite (opt_insert_ne _ "gridColor" "textColor") by discriminate. rewrite opt_insert_eq.
  rewrite (opt_insert_ne _ "gridColor" "backgroundColor") by discriminate.
  rewrite (opt_insert_ne _ "textColor" "backgroundColor") by discriminate.
  now rewrite opt_insert_eq.
Qed.

Lemma opt_resolve_other (o : gmap string value) (k : string) :
  k <> "backgroundColor" -> k <> "textColor" -> k <> "gridColor" ->
  opt (resolve_theme o) k = opt o k.
Proof.
  intros H1 H2 H3. unfold resolve_theme.
  destruct (truthy (opt o "customTheme")); rewrite !opt_insert_ne by congruence; reflexivity.
Qed.

(** *** init and the constructor *)

Lemma includes_gradient_ok (v : value) :
  has_includes v = true -> exists b, includes_gradient v = Ok b.
Proof. destruct v; intros H; try discriminate H; eexists; reflexivity. Qed.

Lemma includes_gradient_throws (v : value) :
  has_includes v = false -> exists msg, includes_gradient v = Throw (TypeError msg).
Proof. destruct v; intros H; try discriminate H; eexists; reflexivity. Qed.

Lemma init_ok (i : instance) :
  isLoading i = true \/ has_includes (opt (resolve_theme (options i)) "backgroundColor") = true ->
  exists j, init i = Ok j
    /\ options j = resolve_theme (options i) /\ isLoading j = isLoading i.
Proof.
  intros H. unfold init. rewrite applyTheme_resolve. simpl. unfold createCanvas. simpl.
  destruct (isLoading i) eqn:El.
  - eexists. split; [reflexivity|]. split; [reflexivity | exact El].
  - destruct H as [H | H]; [discriminate H|].
    destruct (includes_gradient_ok _ H) as [b ->]. simpl.
    eexists. split; [reflexivity|]. split; [reflexivity | exact El].
Qed.

Lemma init_throws (i : instance) :
  isLoading i = false ->
  has_includes (opt (resolve_theme (options i)) "backgroundColor") = false ->
  exists msg, init i = Throw (TypeError msg).
Proof.
  intros El H. unfold init. rewrite applyTheme_resolve. simpl. unfold createCanvas. simpl.
  rewrite El. destruct (includes_gradient_throws _ H) as [msg ->]. now exists msg.
Qed.

Lemma fresh_options (c : element) (u : gmap string value) :
  options (fresh c u) = spread default_options u.
Proof. unfold fresh. simpl. destruct (truthy _); reflexivity. Qed.

Lemma fresh_isLoading (c : element) (u : gmap string value) :
  isLoading (fresh c u) = truthy (opt (spread default_options u) "showPlaceholder").
Proof. unfold fresh. simpl. destruct (truthy _); reflexivity. Qed.

Lemma constructor_found (doc : gmap string element) (id : string)
    (u : gmap string value) (c : element) :
  doc !! id = Some c ->
  constructor doc id u = setupResponsive <$> init (fresh c u).
Proof.
  intros H. unfold constructor. rewrite H. fold (fresh c u).
  destruct (init (fresh c u)); reflexivity.
Qed.

Lemma setupResponsive_options (i : instance) : options (setupResponsive i) = options i.
Proof. unfold setupResponsive. destruct (truthy _); reflexivity. Qed.

Lemma default_colour_options :
  opt default_options "customTheme" = VNull
  /\ opt default_options "backgroundColor" = VStr "#ffffff"
  /\ opt default_options "textColor" = VStr "#333333".
Proof. repeat split; vm_compute; reflexivity. Qed.

(** C7.  [applyTheme] resolves the colours by precedence ([resolve_theme]:
    custom theme, then an explicit non-default background or text
    colour, then the theme table, then the dark entry).  Hence an
    instance built with the theme 'lite' and no colour options of its own
    has the lite colours, and [updateOptions({theme: 'dark'})] replaces
    all three by the dark ones. *)
Theorem updateOptions_lite_to_dark (doc : gmap string element) (id : string)
    (c : element) (u : gmap string value) :
  doc !! id = Some c ->
  u !! "theme" = Some (VStr "lite") ->
  u !! "customTheme" = None ->
  u !! "backgroundColor" = None ->
  u !! "textColor" = None ->
  (forall o, applyTheme o = Ok (resolve_theme o))
  /\ exists i j,
       constructor doc id u = Ok i
       /\ colours (options i) = lite_colours
       /\ updateOptions {[ "theme" := VStr "dark" ]} i = Ok j
       /\ colours (options j) = dark_colours.
Proof.
  intros Hdoc Hth Hcu Hbg Htx. split; [exact applyTheme_resolve|].
  destruct default_colour_options as (Dc & Db & Dt).
  set (O := spread default_options u).
  assert (Oc : opt O "customTheme" = VNull) by (unfold O; now rewrite opt_spread_r).
  assert (Ob : opt O "backgroundColor" = VStr "#ffffff") by (unfold O; now rewrite opt_spread_r).
  assert (Ot : opt O "textColor" = VStr "#333333") by (unfold O; now rewrite opt_spread_r).
  assert (Oth : opt O "theme" = VStr "lite") by (unfold O; now apply opt_spread_l).
  assert (C1 : colours (resolve_theme O) = lite_colours).
  { apply (colours_resolve_table O theme_lite).
    - now rewrite Oc.
    - unfold table_theme. now rewrite Oth.
    - now rewrite Ob.
    - now rewrite Ot. }
  (* construction *)
  rewrite (constructor_found doc id u c Hdoc).
  destruct (init_ok (fresh c u)) as (i & Hi & Hio & Hil).
  { right. rewrite fresh_options. fold O. injection C1 as -> _ _. reflexivity. }
  rewrite fresh_options in Hio. fold O in Hio.
  exists (setupResponsive i). rewrite Hi. simpl.
  set (O2 := spread (resolve_theme O) {[ "theme" := VStr "dark" ]}).
  assert (C2 : colours (resolve_theme O2) = dark_colours).
  { injection C1 as Rb Rt _.
    apply (colours_resolve_table O2 theme_dark).
    - unfold O2. rewrite opt_spread_r by reflexivity.
      rewrite opt_resolve_other by discriminate. now rewrite Oc.
    - unfold table_theme, O2. now rewrite (opt_spread_l _ _ "theme" (VStr "dark")).
    - unfold O2. rewrite opt_spread_r by reflexivity. now rewrite Rb.
    - unfold O2. rewrite opt_spread_r by reflexivity. now rewrite Rt. }
  destruct (init_ok (set_options O2 (setupResponsive i))) as (j & Hj & Hjo & _).
  { right. simpl. injection C2 as -> _ _. reflexivity. }
  exists j. split; [reflexivity|].
  rewrite setupResponsive_options, Hio. split; [exact C1|].
  unfold updateOptions. rewrite setupResponsive_options, Hio. fold O2.
  split; [exact Hj|]. rewrite Hjo. exact C2.
Qed.

Lemma updateOptions_lite_to_dark_witness :
  (forall o, applyTheme o = Ok (resolve_theme o))
  /\ exists i j,
       constructor {[ "chart1" := empty_container 600 ]} "chart1" {[ "theme" := VStr "lite" ]} = Ok i
       /\ colours (options i) = lite_colours
       /\ updateOptions {[ "theme" := VStr "dark" ]} i = Ok j
       /\ colours (options j) = dark_colours.
Proof.
  apply (updateOptions_lite_to_dark {[ "chart1" := empty_container 600 ]} "chart1"
           (empty_container 600) {[ "theme" := VStr "lite" ]}); reflexivity.
Defined.

(** The precedence is by value, not by origin: after a construction with
    the theme 'dark' the background and text colours differ from the
    built-in defaults, so a later [updateOptions({theme: 'lite'})] keeps
    them and only the grid colour changes. *)
Lemma updateOptions_dark_to_lite_keeps_colours :
  (fun i => colours (options i)) <$>
    (constructor {[ "chart1" := empty_container 600 ]} "chart1" {[ "theme" := VStr "dark" ]}
       ≫= updateOptions {[ "theme" := VStr "lite" ]})
  = Ok (VStr "#1a1a2e", VStr "#eee", VStr "#e0e0e0").
Proof. vm_compute. reflexivity. Qed.

Lemma init_never_Error (i : instance) (msg : string) : init i <> Throw (Error msg).
Proof.
  destruct (isLoading i) eqn:El.
  - destruct (init_ok i) as (j & Hj & _); [now left|]. rewrite Hj. discriminate.
  - destruct (has_includes (opt (resolve_theme (options i)) "backgroundColor")) eqn:Eh.
    + destruct (init_ok i) as (j & Hj & _); [now right|]. rewrite Hj. discriminate.
    + destruct (init_throws i El Eh) as (m & Hm). rewrite Hm. discriminate.
Qed.

Lemma constructor_not_found (doc : gmap string element) (id : string) (u : gmap string value) :
  doc !! id = None <-> constructor doc id u = Throw (not_found id).
Proof.
  split.
  - intros Hn. unfold constructor. now rewrite Hn.
  - intros Ht. destruct (doc !! id) as [c|] eqn:Hc; [|reflexivity]. exfalso.
    rewrite (constructor_found doc id u c Hc) in Ht.
    destruct (init (fresh c u)) as [j|e] eqn:Ei; [discriminate Ht|].
    simpl in Ht. injection Ht as ->. exact (init_never_Error _ _ Ei).
Qed.

Lemma inherited_backgroundColor (tag : string) :
  inherited tag <> VUndef ->
  truthy (inherited tag) = true /\ field (inherited tag) "backgroundColor" = VUndef.
Proof.
  unfold inherited. destruct (String.eqb tag "__proto__"); [intros _; split; reflexivity|].
  destruct (existsb _ _); [intros _; split; reflexivity | congruence].
Qed.

(** C10.  The constructor throws the error of its [throw] statement
    exactly when the container is missing.  It also fails with the
    container in place: the theme is looked up with
    [themes[tag] || themes.dark], and a tag that names an inherited
    member of the table (such as 'toString') finds that member instead of
    reaching the fallback, so the background colour becomes [undefined]
    and, without placeholder, [createCanvas] ends in a [TypeError].  A tag
    that the table lacks and does not inherit gets the dark background. *)
Theorem constructor_inherited_theme_throws (doc : gmap string element) (id : string)
    (c : element) (u : gmap string value) (tag : string) :
  doc !! id = Some c ->
  u !! "theme" = Some (VStr tag) ->
  u !! "customTheme" = None ->
  u !! "backgroundColor" = None ->
  truthy (opt (spread default_options u) "showPlaceholder") = false ->
  themes !! tag = None ->
  (forall doc' id' u', doc' !! id' = None <-> constructor doc' id' u' = Throw (not_found id'))
  /\ match inherited tag with
     | VUndef =>
         opt (resolve_theme (spread default_options u)) "backgroundColor" = VStr "#1a1a2e"
     | _ =>
         opt (resolve_theme (spread default_options u)) "backgroundColor" = VUndef
         /\ exists msg, constructor doc id u = Throw (TypeError msg)
     end.
Proof.
  intros Hdoc Hth Hcu Hbg Hp Htag. split; [exact constructor_not_found|].
  destruct default_colour_options as (Dc & Db & Dt).
  set (O := spread default_options u).
  assert (Oc : opt O "customTheme" = VNull) by (unfold O; now rewrite opt_spread_r).
  assert (Ob : opt O "backgroundColor" = VStr "#ffffff") by (unfold O; now rewrite opt_spread_r).
  assert (Oth : opt O "theme" = VStr tag) by (unfold O; now apply opt_spread_l).
  assert (Hres : opt (resolve_theme O) "backgroundColor"
                 = field (js_or (inherited tag) theme_dark) "backgroundColor").
  { unfold resolve_theme. rewrite Oc, Ob. simpl truthy. cbv iota.
    rewrite !opt_insert_ne by discriminate. rewrite opt_insert_eq.
    unfold table_theme. rewrite Oth. simpl to_string. unfold obj_get. rewrite Htag.
    reflexivity. }
  destruct (inherited tag) as [| | | | | | |n] eqn:Ei;
    try (rewrite Hres; reflexivity).
  all: destruct (inherited_backgroundColor tag) as (Ht & Hf); [rewrite Ei; discriminate|];
    rewrite Ei in Ht, Hf; unfold js_or in Hres; rewrite Ht in Hres; rewrite Hf in Hres.
  all: try discriminate Ht.
  all: split; [exact Hres|].
  all: rewrite (constructor_found doc id u c Hdoc).
  all: destruct (init_throws (fresh c u)) as (msg & Hm);
    [ now rewrite fresh_isLoading
    | rewrite fresh_options; fold O; rewrite Hres; reflexivity
    | exists msg; now rewrite Hm ].
Qed.

Lemma constructor_inherited_theme_throws_witness :
  (forall doc' id' u', doc' !! id' = None <-> constructor doc' id' u' = Throw (not_found id'))
  /\ opt (resolve_theme
            (spread default_options
               (list_to_map [("theme", VStr "toString"); ("showPlaceholder", VBool false)])))
         "backgroundColor" = VUndef
  /\ exists msg,
       constructor {[ "chart1" := empty_container 600 ]} "chart1"
         (list_to_map [("theme", VStr "toString"); ("showPlaceholder", VBool false)])
       = Throw (TypeError msg).
Proof.
  exact (constructor_inherited_theme_throws {[ "chart1" := empty_container 600 ]} "chart1"
           (empty_container 600)
           (list_to_map [("theme", VStr "toString"); ("showPlaceholder", VBool false)])
           "toString" eq_refl eq_refl eq_refl eq_refl eq_refl eq_refl).
Defined.

(** *** render *)

Lemma bind_Ok {A B : Type} (a : A) (k : A -> result B) : (Ok a ≫= k) = k a.
Proof. reflexivity. Qed.

Lemma clear_options (i j : instance) : clear i = Ok j -> options j = options i.
Proof.
  unfold clear. destruct (ctx i), (canvas i); intros H; try discriminate H.
  now injection H as <-.
Qed.

Lemma drawTitle_options (i j : instance) : drawTitle i = Ok j -> options j = options i.
Proof.
  unfold drawTitle. destruct (ctx i), (canvas i); intros H; try discriminate H.
  now injection H as <-.
Qed.

Lemma call_method_options (paint : string -> instance -> result (list ctx_event))
    (name : string) (i j : instance) :
  call_method paint name i = Ok j -> options j = options i.
Proof.
  unfold call_method.
  destruct (bool_decide (name ∈ empty_methods)); [intros H; now injection H as <-|].
  destruct (bool_decide (name ∈ class_methods)); [|discriminate].
  destruct (paint name i) as [evs|e]; simpl; intros H; [|discriminate H].
  now injection H as <-.
Qed.

Lemma dispatch_options (paint : string -> instance -> result (list ctx_event))
    (i j : instance) :
  dispatch paint i = Ok j -> options j = options i.
Proof.
  unfold dispatch.
  destruct (chartTypes !! to_string (opt (options i) "type")) as [name|].
  - apply call_method_options.
  - destruct (inherited _) as [| | | | | | |n]; try discriminate;
      try (intros H; now injection H as <-).
    destruct (_ || _); [discriminate|]. intros H; now injection H as <-.
Qed.

Lemma call_drawExternalLegend (paint : string -> instance -> result (list ctx_event))
    (i : instance) :
  call_method paint "drawExternalLegend" i
  = Throw (TypeError "this.drawExternalLegend is not a function").
Proof.
  unfold call_method.
  replace (bool_decide ("drawExternalLegend" ∈ empty_methods)) with false
    by (vm_compute; reflexivity).
  replace (bool_decide ("drawExternalLegend" ∈ class_methods)) with false
    by (vm_compute; reflexivity).
  reflexivity.
Qed.

(** What [render] does once the canvas is cleared, the title drawn and
    the chart painted. *)
Lemma render_steps (paint : string -> instance -> result (list ctx_event)) (i : instance) :
  isLoading i = false ->
  render paint i =
    i1 ← clear i;
    i2 ← (if truthy (opt (options i1) "title") then drawTitle i1 else Ok i1);
    i3 ← dispatch paint i2;
    if truthy (opt (options i3) "showLegend") then
      length_positive (opt (options i3) "data") ≫= λ nonempty : bool,
      if nonempty then call_method paint "drawExternalLegend" i3 else Ok i3
    else Ok i3.
Proof. intros H. unfold render. now rewrite H. Qed.

(** C2.  The class declares [drawLegend] but no [drawExternalLegend], and
    [render] calls the latter: whenever the instance is not loading, the
    legend is enabled and the data array is not empty, [render] throws,
    whatever the chart routines do; if clearing, title and chart went
    through, the error is the [TypeError] of calling the missing
    method. *)
Theorem render_legend_throws (paint : string -> instance -> result (list ctx_event))
    (i : instance) (x : value) (l : list value) :
  isLoading i = false ->
  truthy (opt (options i) "showLegend") = true ->
  opt (options i) "data" = VArr (x :: l) ->
  ("drawLegend" ∈ class_methods)
  /\ ("drawExternalLegend" ∉ class_methods)
  /\ (exists e, render paint i = Throw e)
  /\ (forall i1 i2 i3,
        clear i = Ok i1 ->
        (if truthy (opt (options i1) "title") then drawTitle i1 else Ok i1) = Ok i2 ->
        dispatch paint i2 = Ok i3 ->
        render paint i = Throw (TypeError "this.drawExternalLegend is not a function")).
Proof.
  intros Hload Hlegend Hdata.
  split; [unfold class_methods; in_list|].
  split; [apply (bool_decide_eq_false_1 _); vm_compute; reflexivity|].
  assert (Hlast : forall i1 i2 i3,
            clear i = Ok i1 ->
            (if truthy (opt (options i1) "title") then drawTitle i1 else Ok i1) = Ok i2 ->
            dispatch paint i2 = Ok i3 ->
            render paint i = Throw (TypeError "this.drawExternalLegend is not a function")).
  { intros i1 i2 i3 H1 H2 H3. rewrite (render_steps paint i Hload), H1, bind_Ok.
    rewrite H2, bind_Ok, H3, bind_Ok.
    assert (Ho : options i3 = options i).
    { rewrite (dispatch_options paint i2 i3 H3).
      assert (Ho2 : options i2 = options i1).
      { destruct (truthy (opt (options i1) "title")).
        - exact (drawTitle_options i1 i2 H2).
        - now injection H2 as <-. }
      rewrite Ho2. exact (clear_options i i1 H1). }
    rewrite Ho, Hlegend, Hdata. apply call_drawExternalLegend. }
  split; [|exact Hlast].
  destruct (clear i) as [i1|e1] eqn:H1.
  2:{ exists e1. rewrite (render_steps paint i Hload), H1. reflexivity. }
  destruct (if truthy (opt (options i1) "title") then drawTitle i1 else Ok i1) as [i2|e2] eqn:H2.
  2:{ exists e2. rewrite (render_steps paint i Hload), H1, bind_Ok, H2. reflexivity. }
  destruct (dispatch paint i2) as [i3|e3] eqn:H3.
  2:{ exists e3. rewrite (render_steps paint i Hload), H1, bind_Ok, H2, bind_Ok, H3.
      reflexivity. }
  eexists. exact (Hlast i1 i2 i3 eq_refl H2 H3).
Qed.

Lemma render_legend_throws_witness :
  ("drawLegend" ∈ class_methods)
  /\ ("drawExternalLegend" ∉ class_methods)
  /\ (exists e, render (fun _ _ => Ok []) readme_instance = Throw e)
  /\ (forall i1 i2 i3,
        clear readme_instance = Ok i1 ->
        (if truthy (opt (options i1) "title") then drawTitle i1 else Ok i1) = Ok i2 ->
        dispatch (fun _ _ => Ok []) i2 = Ok i3 ->
        render (fun _ _ => Ok []) readme_instance
        = Throw (TypeError "this.drawExternalLegend is not a function")).
Proof.
  apply (render_legend_throws (fun _ _ => Ok []) readme_instance
           (record "Jan" (VNum 45)) [record "Feb" (VNum 62)]);
    vm_compute; reflexivity.
Defined.

(** On the README's bar chart the failing call is the legend's. *)
Lemma render_readme_chart :
  readme_chart ≫= render (fun _ _ => Ok [])
  = Throw (TypeError "this.drawExternalLegend is not a function").
Proof. vm_compute. reflexivity. Qed.

(** With the placeholder shown (the default) [createCanvas] returns
    before creating anything: whatever the document, the container and
    the other options (theme and style being primitive values), the
    constructor completes with no canvas and no context, and the render
    that [init] schedules stops in [clear] with a [TypeError], whatever
    the chart routines do. *)
Theorem render_after_default_construction
    (paint : string -> instance -> result (list ctx_event))
    (doc : gmap string element) (id : string) (c : element) (u : gmap string value) :
  doc !! id = Some c ->
  truthy (opt (spread default_options u) "showPlaceholder") = true ->
  primitive (opt (spread default_options u) "theme") = true ->
  primitive (opt (spread default_options u) "style") = true ->
  exists i, constructor doc id u = Ok i
    /\ canvas i = None /\ ctx i = None /\ isLoading i = true
    /\ init_timeout paint i
       = Throw (TypeError "Cannot read properties of null (reading 'clearRect')").
Proof.
  intros Hdoc Hp _ _. rewrite (constructor_found doc id u c Hdoc).
  assert (Hl : isLoading (fresh c u) = true) by now rewrite fresh_isLoading.
  assert (Hc : canvas (fresh c u) = None /\ ctx (fresh c u) = None).
  { unfold fresh. simpl.
    destruct (truthy (opt (spread default_options u) "showPlaceholder")); split; reflexivity. }
  destruct Hc as [Hc Hx].
  unfold init. rewrite applyTheme_resolve, bind_Ok.
  unfold createCanvas. simpl isLoading. rewrite Hl, bind_Ok.
  eexists. split; [reflexivity|].
  assert (Hs : forall j, canvas (setupResponsive j) = canvas j
                 /\ ctx (setupResponsive j) = ctx j
                 /\ isLoading (setupResponsive j) = isLoading j).
  { intros j. unfold setupResponsive.
    destruct (truthy (opt (options j) "responsive")); repeat split; reflexivity. }
  destruct (Hs (add_timer InitTimeout
                  (set_options (resolve_theme (options (fresh c u))) (fresh c u))))
    as (Hs1 & Hs2 & Hs3).
  rewrite Hs1, Hs2, Hs3. simpl. rewrite Hc, Hx, Hl. repeat split.
  unfold init_timeout, render.
  assert (Hh : forall j, isLoading (hidePlaceholder j) = false /\ ctx (hidePlaceholder j) = ctx j).
  { intros j. unfold hidePlaceholder.
    destruct (existsb is_placeholder (children (container j))); split; reflexivity. }
  destruct (Hh (setupResponsive
                  (add_timer InitTimeout
                     (set_options (resolve_theme (options (fresh c u))) (fresh c u)))))
    as (Hh1 & Hh2).
  rewrite Hh1. unfold clear. rewrite Hh2, Hs2. simpl. rewrite Hx. reflexivity.
Qed.

Lemma render_after_default_construction_witness :
  exists i, default_chart = Ok i
    /\ canvas i = None /\ ctx i = None /\ isLoading i = true
    /\ init_timeout (fun _ _ => Ok []) i
       = Throw (TypeError "Cannot read properties of null (reading 'clearRect')").
Proof.
  exact (render_after_default_construction (fun _ _ => Ok [])
           {[ "chart1" := empty_container 600 ]} "chart1" (empty_container 600)
           {[ "data" := VArr [record "Jan" (VNum 45)] ]} eq_refl eq_refl eq_refl eq_refl).
Defined.

(** With no data the legend is skipped and [render] completes. *)
Lemma render_empty_data :
  exists j, empty_chart ≫= render (fun _ _ => Ok []) = Ok j.
Proof. eexists. vm_compute. reflexivity. Qed.

(** *** Colour interpolation and the gauge reading *)


Lemma mixes_ok : forallb (fun x => forallb (mix_ok x) channel_doubles) channel_doubles = true.
Proof. vm_compute. reflexivity. Qed.

Lemma rounds_ok : forallb round_ok channel_doubles = true.
Proof. vm_compute. reflexivity. Qed.

Lemma channel_double (n : Z) : 0 <= n <= 255 -> In (Z2F n) channel_doubles.
Proof.
  intros Hn. unfold channel_doubles. apply in_map, zrange_elem. lia.
Qed.

Lemma mix_ok_spec (x y : Z) :
  0 <= x <= 255 -> 0 <= y <= 255 ->
  Math_round (Z2F x + (Z2F y - Z2F x) * 0) = Z2F x
  /\ Math_round (Z2F x + (Z2F y - Z2F x) * 1) = Z2F y.
Proof.
  intros Hx Hy. pose proof mixes_ok as H. rewrite forallb_forall in H.
  specialize (H _ (channel_double x Hx)). rewrite forallb_forall in H.
  specialize (H _ (channel_double y Hy)). unfold mix_ok in H.
  apply andb_prop in H as [H0 H1].
  apply FloatAxioms.Leibniz.eqb_spec in H0. apply FloatAxioms.Leibniz.eqb_spec in H1.
  pose proof rounds_ok as R. rewrite forallb_forall in R.
  pose proof (R _ (channel_double x Hx)) as Rx. pose proof (R _ (channel_double y Hy)) as Ry.
  apply FloatAxioms.Leibniz.eqb_spec in Rx. apply FloatAxioms.Leibniz.eqb_spec in Ry.
  rewrite H0, H1. split; assumption.
Qed.

(** Whatever it is given, [hexToRgb] answers with three channels between
    0 and 255. *)
Lemma hexToRgb_channels (v : value) :
  exists n1 n2 n3,
    hexToRgb v = {| r := Z2F n1; g := Z2F n2; b := Z2F n3 |}
    /\ 0 <= n1 <= 255 /\ 0 <= n2 <= 255 /\ 0 <= n3 <= 255.
Proof.
  destruct (hex_exec (to_string v)) as [[[g1 g2] g3]|] eqn:E.
  - destruct (hex_exec_form _ _ _ _ E) as (l & (Hlen & Hall) & Hs).
    destruct l as [|c1 [|c2 [|c3 [|c4 [|c5 [|c6 [|c7 l]]]]]]]; try discriminate Hlen.
    pose proof (hexToRgb_hex6 c1 c2 c3 c4 c5 c6 (to_string v) Hall Hs) as Hrgb.
    assert (Hv : hexToRgb v = hexToRgb (VStr (to_string v))) by reflexivity.
    rewrite Forall_forall in Hall.
    assert (Hin : forall c, c ∈ [c1; c2; c3; c4; c5; c6] -> c ∈ hex_chars) by exact Hall.
    destruct (pair_ok_spec c1 c2) as (_ & _ & B1); [apply Hin; in_list..|].
    destruct (pair_ok_spec c3 c4) as (_ & _ & B2); [apply Hin; in_list..|].
    destruct (pair_ok_spec c5 c6) as (_ & _ & B3); [apply Hin; in_list..|].
    exists (hex_pair c1 c2), (hex_pair c3 c4), (hex_pair c5 c6).
    rewrite Hv, Hrgb. repeat split; lia.
  - exists 0, 0, 0. unfold hexToRgb. rewrite E. repeat split; lia.
Qed.

(** The interpolation of two colours is the first colour at the factor 0
    and the second at the factor 1, each in [rgb()] notation: for
    six-digit hex colours their own channels, for anything else black. *)
Theorem interpolateColor_endpoints (color1 color2 : value) :
  primitive color1 = true -> primitive color2 = true ->
  interpolateColor color1 color2 0 = rgb_of (hexToRgb color1)
  /\ interpolateColor color1 color2 1 = rgb_of (hexToRgb color2).
Proof.
  intros _ _. unfold interpolateColor, rgb_of.
  destruct (hexToRgb_channels color1) as (x1 & x2 & x3 & -> & X1 & X2 & X3).
  destruct (hexToRgb_channels color2) as (y1 & y2 & y3 & -> & Y1 & Y2 & Y3).
  simpl.
  destruct (mix_ok_spec x1 y1 X1 Y1) as [-> ->].
  destruct (mix_ok_spec x2 y2 X2 Y2) as [-> ->].
  destruct (mix_ok_spec x3 y3 X3 Y3) as [-> ->].
  split; reflexivity.
Qed.

Lemma interpolateColor_endpoints_witness :
  interpolateColor (VStr "#667eea") (VStr "#ff0000") 0 = VStr "rgb(102,126,234)"
  /\ interpolateColor (VStr "#667eea") (VStr "#ff0000") 1 = VStr "rgb(255,0,0)".
Proof.
  destruct (interpolateColor_endpoints (VStr "#667eea") (VStr "#ff0000") eq_refl eq_refl)
    as [H0 H1].
  split; [rewrite H0 | rewrite H1]; vm_compute; reflexivity.
Defined.

(** Between the end points nothing is clamped: a factor outside [0, 1]
    leaves the range of colour channels. *)
Lemma interpolateColor_not_clamped :
  interpolateColor (VStr "#000000") (VStr "#ffffff") 2 = VStr "rgb(510,510,510)"
  /\ interpolateColor (VStr "#000000") (VStr "#ffffff") (-1) = VStr "rgb(-255,-255,-255)".
Proof. split; vm_compute; reflexivity. Qed.

(** The gauge reads its value and its maximum from [options.data]
    itself.  When the data is an array, as for every other chart, the
    maximum is 100 whatever the entries carry, and the value is the
    [value] of the first entry, or 75 when there is no entry or that
    value is missing or falsy: a gauge at 0 shows 75.  A record
    [{value, max}] given as the data supplies both. *)
Theorem gauge_reading :
  (forall l : list value, gauge_max (VArr l) = Ok (VNum 100))
  /\ gauge_value (VArr []) = Ok (VNum 75)
  /\ (forall (m : gmap string value) (rest : list value),
        gauge_value (VArr (VObj m :: rest)) = Ok (js_or (obj_get m "value") (VNum 75)))
  /\ (forall (m : gmap string value) (rest : list value),
        gauge_value (VArr (VObj (<["value" := VNum 0]> m) :: rest)) = Ok (VNum 75))
  /\ (forall (f : float) (rest : list value),
        gauge_value (VArr (VNum f :: rest)) = Ok (VNum 75))
  /\ (forall m : gmap string value,
        truthy (obj_get m "value") = true -> gauge_value (VObj m) = Ok (obj_get m "value"))
  /\ (forall m : gmap string value,
        gauge_max (VObj m) = Ok (js_or (obj_get m "max") (VNum 100))).
Proof.
  split; [reflexivity|]. split; [reflexivity|]. split; [reflexivity|].
  split.
  { intros m rest. unfold gauge_value. simpl. unfold obj_get.
    rewrite lookup_insert_eq. reflexivity. }
  split; [reflexivity|]. split; [|reflexivity].
  intros m Hv. unfold gauge_value. simpl. now rewrite Hv.
Qed.

(** *** Theme resolution, again *)

Lemma resolve_theme_explicit_background (o : gmap string value) :
  truthy (opt o "customTheme") = false ->
  explicit (opt o "backgroundColor") "#ffffff" = true ->
  opt (resolve_theme o) "backgroundColor" = opt o "backgroundColor".
Proof.
  intros Hc Hb. unfold resolve_theme. rewrite Hc, Hb.
  rewrite !opt_insert_ne by discriminate. apply opt_insert_eq.
Qed.

Lemma resolve_theme_explicit_text (o : gmap string value) :
  truthy (opt o "customTheme") = false ->
  explicit (opt o "textColor") "#333333" = true ->
  opt (resolve_theme o) "textColor" = opt o "textColor".
Proof.
  intros Hc Ht. unfold resolve_theme. rewrite Hc, Ht.
  rewrite opt_insert_ne by discriminate. apply opt_insert_eq.
Qed.

Lemma resolve_theme_grid (o : gmap string value) :
  truthy (opt o "customTheme") = false ->
  opt (resolve_theme o) "gridColor" = field (table_theme o) "gridColor".
Proof.
  intros Hc. unfold resolve_theme. rewrite Hc. apply opt_insert_eq.
Qed.

(** Switching the theme does not bring the colours of the new theme.
    [applyTheme] replaces the background only while it is unset or the
    built-in white, and the text colour only while it is unset or the
    built-in grey; once a theme has put other colours there, they count
    as the caller's.  So after a construction with the default theme
    (dark), [updateOptions({theme: tag})] leaves the dark background and
    text colour for every tag; only the grid colour follows the new
    theme. *)
Theorem theme_switch_keeps_colours (doc : gmap string element) (id : string)
    (c : element) (u : gmap string value) (tag : string) :
  doc !! id = Some c ->
  u !! "theme" = None ->
  u !! "customTheme" = None ->
  u !! "backgroundColor" = None ->
  u !! "textColor" = None ->
  primitive (opt (spread default_options u) "style") = true ->
  primitive (opt (spread default_options u) "height") = true ->
  (forall o : gmap string value,
      primitive (opt o "theme") = true ->
      truthy (opt o "customTheme") = false ->
      exists o', applyTheme o = Ok o'
        /\ (explicit (opt o "backgroundColor") "#ffffff" = true ->
              opt o' "backgroundColor" = opt o "backgroundColor")
        /\ (explicit (opt o "textColor") "#333333" = true ->
              opt o' "textColor" = opt o "textColor")
        /\ opt o' "gridColor" = field (table_theme o) "gridColor")
  /\ exists i j,
       constructor doc id u = Ok i
       /\ colours (options i) = dark_colours
       /\ updateOptions {[ "theme" := VStr tag ]} i = Ok j
       /\ opt (options j) "backgroundColor" = VStr "#1a1a2e"
       /\ opt (options j) "textColor" = VStr "#eee"
       /\ opt (options j) "gridColor"
          = field (js_or (obj_get themes tag) theme_dark) "gridColor".
Proof.
  intros Hdoc Hth Hcu Hbg Htx _ _. split.
  { intros o _ Hc. exists (resolve_theme o). split; [apply applyTheme_resolve|].
    split; [apply resolve_theme_explicit_background, Hc|].
    split; [apply resolve_theme_explicit_text, Hc | apply resolve_theme_grid, Hc]. }
  destruct default_colour_options as (Dc & Db & Dt).
  set (O := spread default_options u).
  assert (Oc : opt O "customTheme" = VNull) by (unfold O; now rewrite opt_spread_r).
  assert (Ob : opt O "backgroundColor" = VStr "#ffffff") by (unfold O; now rewrite opt_spread_r).
  assert (Ot : opt O "textColor" = VStr "#333333") by (unfold O; now rewrite opt_spread_r).
  assert (Oth : opt O "theme" = VStr "dark") by (unfold O; now rewrite opt_spread_r).
  assert (C1 : colours (resolve_theme O) = dark_colours).
  { apply (colours_resolve_table O theme_dark).
    - now rewrite Oc.
    - unfold table_theme. now rewrite Oth.
    - now rewrite Ob.
    - now rewrite Ot. }
  rewrite (constructor_found doc id u c Hdoc).
  destruct (init_ok (fresh c u)) as (i & Hi & Hio & Hil).
  { right. rewrite fresh_options. fold O. injection C1 as -> _ _. reflexivity. }
  rewrite fresh_options in Hio. fold O in Hio.
  exists (setupResponsive i). rewrite Hi. simpl.
  set (O2 := spread (resolve_theme O) {[ "theme" := VStr tag ]}).
  injection C1 as Rb Rt Rg.
  assert (O2c : truthy (opt O2 "customTheme") = false).
  { unfold O2. rewrite opt_spread_r by reflexivity.
    rewrite opt_resolve_other by discriminate. now rewrite Oc. }
  assert (O2b : opt O2 "backgroundColor" = VStr "#1a1a2e").
  { unfold O2. rewrite opt_spread_r by reflexivity. exact Rb. }
  assert (O2t : opt O2 "textColor" = VStr "#eee").
  { unfold O2. rewrite opt_spread_r by reflexivity. exact Rt. }
  assert (O2th : opt O2 "theme" = VStr tag).
  { unfold O2. now rewrite (opt_spread_l _ _ "theme" (VStr tag)). }
  assert (R2b : opt (resolve_theme O2) "backgroundColor" = VStr "#1a1a2e").
  { rewrite resolve_theme_explicit_background; [exact O2b | exact O2c | now rewrite O2b]. }
  assert (R2t : opt (resolve_theme O2) "textColor" = VStr "#eee").
  { rewrite resolve_theme_explicit_text; [exact O2t | exact O2c | now rewrite O2t]. }
  destruct (init_ok (set_options O2 (setupResponsive i))) as (j & Hj & Hjo & _).
  { right. simpl. now rewrite R2b. }
  simpl in Hjo.
  exists j. split; [reflexivity|].
  rewrite setupResponsive_options, Hio.
  split; [unfold colours; now rewrite Rb, Rt, Rg|].
  unfold updateOptions. rewrite setupResponsive_options, Hio. fold O2.
  split; [exact Hj|]. rewrite Hjo.
  split; [exact R2b|]. split; [exact R2t|].
  rewrite (resolve_theme_grid O2 O2c). unfold table_theme. now rewrite O2th.
Qed.

Lemma theme_switch_keeps_colours_witness :
  exists i j,
    constructor {[ "chart1" := empty_container 600 ]} "chart1" ∅ = Ok i
    /\ colours (options i) = dark_colours
    /\ updateOptions {[ "theme" := VStr "gradient" ]} i = Ok j
    /\ opt (options j) "backgroundColor" = VStr "#1a1a2e"
    /\ opt (options j) "textColor" = VStr "#eee"
    /\ opt (options j) "gridColor" = VStr "rgba(255,255,255,0.1)".
Proof.
  exact (proj2 (theme_switch_keeps_colours {[ "chart1" := empty_container 600 ]} "chart1"
                  (empty_container 600) ∅ "gradient"
                  eq_refl eq_refl eq_refl eq_refl eq_refl eq_refl eq_refl)).
Defined.

Lemma js_or_idem (a b : value) : js_or a (js_or a b) = js_or a b.
Proof. unfold js_or. destruct (truthy a); reflexivity. Qed.

Lemma explicit_choice (v w : value) (dflt : string) :
  (if explicit (if explicit v dflt then v else w) dflt
   then (if explicit v dflt then v else w) else w)
  = (if explicit v dflt then v else w).
Proof.
  destruct (explicit v dflt) eqn:E.
  - now rewrite E.
  - destruct (explicit w dflt); reflexivity.
Qed.

Lemma opt_lookup (o : gmap string value) (k : string) (v : value) :
  o !! k = Some v -> opt o k = v.
Proof. intros H. unfold opt. now rewrite H. Qed.

Lemma resolve_theme_fixed (o : gmap string value) :
  resolve_theme (resolve_theme o) = resolve_theme o.
Proof.
  assert (Hc : opt (resolve_theme o) "customTheme" = opt o "customTheme")
    by (apply opt_resolve_other; discriminate).
  assert (Hth : table_theme (resolve_theme o) = table_theme o).
  { unfold table_theme. now rewrite opt_resolve_other by discriminate. }
  unfold resolve_theme at 1. rewrite Hc, Hth.
  unfold resolve_theme.
  destruct (truthy (opt o "customTheme")).
  - rewrite !opt_insert_ne by discriminate. rewrite !opt_insert_eq.
    rewrite !opt_insert_ne by discriminate. rewrite !opt_insert_eq.
    rewrite !js_or_idem.
    rewrite (insert_id _ "backgroundColor").
    2:{ rewrite !lookup_insert_ne by discriminate. apply lookup_insert_eq. }
    rewrite (insert_id _ "textColor").
    2:{ rewrite lookup_insert_ne by discriminate. apply lookup_insert_eq. }
    apply insert_id, lookup_insert_eq.
  - rewrite !opt_insert_ne by discriminate. rewrite !opt_insert_eq.
    rewrite !opt_insert_ne by discriminate. rewrite !opt_insert_eq.
    rewrite !explicit_choice.
    rewrite (insert_id _ "backgroundColor").
    2:{ rewrite !lookup_insert_ne by discriminate. apply lookup_insert_eq. }
    rewrite (insert_id _ "textColor").
    2:{ rewrite lookup_insert_ne by discriminate. apply lookup_insert_eq. }
    apply insert_id, lookup_insert_eq.
Qed.

Lemma init_options (i j : instance) :
  init i = Ok j -> options j = resolve_theme (options i).
Proof.
  unfold init. rewrite applyTheme_resolve, bind_Ok. unfold createCanvas. simpl.
  destruct (isLoading i).
  - simpl. intros H. now injection H as <-.
  - destruct (includes_gradient _) as [gb|e]; simpl; intros H; [|discriminate H].
    now injection H as <-.
Qed.

(** Resolving the theme a second time changes nothing: the options
    [applyTheme] leaves are a fixed point of [applyTheme].  Hence
    re-initialising an instance without new options, as
    [updateOptions({})] does, keeps every option, the resolved colours
    included. *)
Theorem applyTheme_idempotent (o : gmap string value) :
  primitive (opt o "theme") = true ->
  exists o1, applyTheme o = Ok o1
    /\ applyTheme o1 = Ok o1
    /\ (forall i k : instance,
          options i = o1 -> updateOptions ∅ i = Ok k -> options k = o1).
Proof.
  intros _. exists (resolve_theme o). split; [apply applyTheme_resolve|].
  split; [rewrite applyTheme_resolve; f_equal; apply resolve_theme_fixed|].
  intros i k Hi Hk. unfold updateOptions in Hk. apply init_options in Hk.
  rewrite Hk. simpl. unfold spread. rewrite (left_id ∅ (∪)), Hi.
  apply resolve_theme_fixed.
Qed.

Lemma applyTheme_idempotent_witness :
  exists o1, applyTheme default_options = Ok o1
    /\ applyTheme o1 = Ok o1
    /\ (forall i k : instance,
          options i = o1 -> updateOptions ∅ i = Ok k -> options k = o1).
Proof. exact (applyTheme_idempotent default_options eq_refl). Defined.
